(** * Smart Parking Mission Control: a shallow embedding of [main.py]

    The FastAPI handlers of [main.py] are embedded as functions over JSON
    values.  Calls to the FIWARE context broker and to the machine websockets
    are effects: a handler is a state transformer over a [World] that holds the
    broker's state, the connection manager's list and the wire (the
    chronological log of everything that left the process). *)

From Stdlib Require Import ZArith List String Ascii Bool Lia.
From Stdlib Require Import Floats.SpecFloat DecimalString.
Import ListNotations.

Open Scope string_scope.
Open Scope Z_scope.
Set Warnings "-register-all".

(* ===================================================================== *)
(** ** Python values as they come out of [response.json()] *)
(* ===================================================================== *)

(** A decoded JSON document.  A [dict] keeps its insertion order, so it is an
    association list in that order; a decoded dict holds each key once, and
    [lookup] reads the binding of a key. *)
Inductive json : Type :=
| JNull
| JBool (b : bool)
| JInt (n : Z)
| JFloat (x : spec_float)
| JStr (s : string)
| JList (items : list json)
| JDict (fields : list (string * json)).

Fixpoint lookup (k : string) (d : list (string * json)) : option json :=
  match d with
  | [] => None
  | (k', v) :: rest => if (k' =? k)%string then Some v else lookup k rest
  end.

Definition has_key (k : string) (d : list (string * json)) : bool :=
  match lookup k d with Some _ => true | None => false end.

(** Python's truth value of an object: [None], [False], zero, and the empty
    string, list and dict are falsy. *)
Definition truthy (v : json) : bool :=
  match v with
  | JNull => false
  | JBool b => b
  | JInt n => negb (n =? 0)
  | JFloat (S754_zero _) => false
  | JFloat _ => true
  | JStr s => negb (s =? "")%string
  | JList items => match items with [] => false | _ :: _ => true end
  | JDict fields => match fields with [] => false | _ :: _ => true end
  end.

(** [v == s] for a string literal [s]: only the equal string compares equal. *)
Definition py_eq_str (v : json) (s : string) : bool :=
  match v with
  | JStr t => (t =? s)%string
  | _ => false
  end.

(** [needle in hay] on two strings is the substring test. *)
Fixpoint is_substring (needle hay : string) : bool :=
  if prefix needle hay then true
  else match hay with
       | EmptyString => false
       | String _ rest => is_substring needle rest
       end.

(** [str(n)] for an integer. *)
Definition str_int (n : Z) : string := NilZero.string_of_int (Z.to_int n).

(* ===================================================================== *)
(** ** Exceptions *)
(* ===================================================================== *)

Record Response : Type := mkResponse {
  status_code : Z;
  reason : string;
  resp_url : string;
  text : string;
  (** the decoded body, or the decoder's message when the body is not JSON *)
  content : string + json
}.

Inductive exn : Type :=
| HTTPException (code : Z) (detail : string)        (* fastapi *)
| HTTPError (msg : string) (response : Response)    (* requests: raise_for_status *)
| RequestException (msg : string)                   (* requests: ConnectionError, Timeout, ... *)
| JSONDecodeError (msg : string)                    (* requests: response.json() *)
| TypeError
| KeyError (key : string)
| AttributeError
| ValueError
| RuntimeError.                                     (* starlette: send on a closed socket *)

(** [str(e)]; only the exceptions the handlers catch and print carry text. *)
Definition exn_str (e : exn) : string :=
  match e with
  | HTTPException code detail => str_int code ++ ": " ++ detail
  | HTTPError msg _ => msg
  | RequestException msg => msg
  | JSONDecodeError msg => msg
  | KeyError key => "'" ++ key ++ "'"
  | TypeError | AttributeError | ValueError | RuntimeError => ""
  end.

(** [except requests.exceptions.RequestException]: [HTTPError] and the JSON
    decoding error of [requests] are subclasses of it. *)
Definition is_RequestException (e : exn) : bool :=
  match e with
  | HTTPError _ _ | RequestException _ | JSONDecodeError _ => true
  | _ => false
  end.

Inductive result (A : Type) : Type :=
| Ok (a : A)
| Raise (e : exn).
Arguments Ok {A} a.
Arguments Raise {A} e.

Definition rbind {A B : Type} (r : result A) (k : A -> result B) : result B :=
  match r with
  | Ok a => k a
  | Raise e => Raise e
  end.

Declare Scope result_scope.
Delimit Scope result_scope with result.
Notation "x <- r ;; k" := (rbind r (fun x => k))
  (at level 100, r at next level, right associativity) : result_scope.

(* ===================================================================== *)
(** ** Operations on Python objects that may raise *)
(* ===================================================================== *)

(** [obj.get(k)]: only a dict has the method; a missing key gives [None]. *)
Definition py_get (obj : json) (k : string) : result json :=
  match obj with
  | JDict fields => Ok (match lookup k fields with Some v => v | None => JNull end)
  | _ => Raise AttributeError
  end.

(** [obj[k]] for a string key. *)
Definition py_item (obj : json) (k : string) : result json :=
  match obj with
  | JDict fields =>
      match lookup k fields with
      | Some v => Ok v
      | None => Raise (KeyError k)
      end
  | _ => Raise TypeError
  end.

(** [needle in hay] for a string literal [needle]. *)
Definition py_in (needle : string) (hay : json) : result bool :=
  match hay with
  | JStr s => Ok (is_substring needle s)
  | JList items => Ok (existsb (fun v => py_eq_str v needle) items)
  | JDict fields => Ok (has_key needle fields)
  | JNull | JBool _ | JInt _ | JFloat _ => Raise TypeError
  end.

Fixpoint chars (s : string) : list json :=
  match s with
  | EmptyString => []
  | String c rest => JStr (String c EmptyString) :: chars rest
  end.

(** The items a [for] loop visits. *)
Definition py_iter (v : json) : result (list json) :=
  match v with
  | JList items => Ok items
  | JDict fields => Ok (map (fun kv => JStr (fst kv)) fields)
  | JStr s => Ok (chars s)
  | JNull | JBool _ | JInt _ | JFloat _ => Raise TypeError
  end.

(** [len(v)] *)
Definition py_len (v : json) : result Z :=
  match v with
  | JList items => Ok (Z.of_nat (List.length items))
  | JDict fields => Ok (Z.of_nat (List.length fields))
  | JStr s => Ok (Z.of_nat (String.length s))
  | JNull | JBool _ | JInt _ | JFloat _ => Raise TypeError
  end.

(* ===================================================================== *)
(** ** [get_clean_value] and the matching pass of [find_parking_spot] *)
(* ===================================================================== *)

Record BookingRequest : Type := mkBookingRequest {
  requires_disabled : bool;
  requires_female : bool;
  requires_ev : bool
}.

(** Helper function to extract the actual value from NGSI-LD format *)
Definition get_clean_value (attribute : json) : json :=
  if negb (truthy attribute) then JNull
  else match attribute with
       | JDict fields =>
           match lookup "value" fields with
           | Some v => v
           | None => attribute
           end
       | _ => attribute
       end.

Local Open Scope result_scope.

(** One turn of the first loop: [None] when the spot is skipped ([continue],
    or [is_match] false), [Some (spot, spot_weight)] when it is appended to
    [suitable_spots]. *)
Definition examine (preferences : BookingRequest) (spot : json)
  : result (option (json * Z)) :=
  spot_id <- py_get spot "id" ;;
  status_attr <- py_get spot "status" ;;
  let status := get_clean_value status_attr in
  category_attr <- py_get spot "category" ;;
  let categories := get_clean_value category_attr in
  if negb (py_eq_str status "free") then Ok None
  else
    let spot_weight := 0 in
    let is_match := true in
    ev <- py_in "forElectricCharging" categories ;;
    let spot_weight := if ev then spot_weight + 1 else spot_weight in
    dis <- py_in "forDisabled" categories ;;
    let spot_weight := if dis then spot_weight + 1 else spot_weight in
    wom <- py_in "forWomen" categories ;;
    let spot_weight := if wom then spot_weight + 1 else spot_weight in
    is_match <-
      (if requires_ev preferences then
         c <- py_in "forElectricCharging" categories ;;
         Ok (if negb c then false else is_match)
       else Ok is_match) ;;
    is_match <-
      (if requires_disabled preferences then
         c <- py_in "forDisabled" categories ;;
         Ok (if negb c then false else is_match)
       else Ok is_match) ;;
    is_match <-
      (if requires_female preferences then
         c <- py_in "forWomen" categories ;;
         Ok (if negb c then false else is_match)
       else Ok is_match) ;;
    is_match <-
      (if negb (requires_disabled preferences) && negb (requires_female preferences) then
         d <- py_in "forDisabled" categories ;;
         c <- (if d then Ok true else py_in "forWomen" categories) ;;
         Ok (if c then false else is_match)
       else Ok is_match) ;;
    Ok (if is_match then Some (spot, spot_weight) else None).

(** [for spot in all_spots: ...] accumulating [suitable_spots]. *)
Fixpoint scan (preferences : BookingRequest) (all_spots : list json)
    (suitable_spots : list (json * Z)) : result (list (json * Z)) :=
  match all_spots with
  | [] => Ok suitable_spots
  | spot :: rest =>
      r <- examine preferences spot ;;
      scan preferences rest
        (match r with
         | Some entry => suitable_spots ++ [entry]
         | None => suitable_spots
         end)
  end.

(** [weight < min_weight], where [min_weight] starts as [float("inf")]
    ([None] here). *)
Definition below (weight : Z) (min_weight : option Z) : bool :=
  match min_weight with
  | None => true
  | Some m => weight <? m
  end.

(** [for spot, weight in suitable_spots: if weight < min_weight: ...] *)
Fixpoint pick (suitable_spots : list (json * Z)) (best_spot : json)
    (min_weight : option Z) : json :=
  match suitable_spots with
  | [] => best_spot
  | (spot, weight) :: rest =>
      if below weight min_weight then pick rest spot (Some weight)
      else pick rest best_spot min_weight
  end.

Definition no_spot_response : json :=
  JDict [("status", JStr "failure"); ("message", JStr "No suitable spots available.")].

(** The tail of [find_parking_spot]: the answer built from [best_spot]. *)
Definition respond (best_spot : json) : result json :=
  location_attr <- py_get best_spot "location" ;;
  let location_data := get_clean_value location_attr in
  coordinates <-
    (if truthy location_data then py_get location_data "coordinates"
     else Ok (JList [JInt 0; JInt 0])) ;;
  assigned_spot_id <- py_get best_spot "id" ;;
  spot_number_attr <- py_get best_spot "spotNumber" ;;
  Ok (JDict [("status", JStr "success");
             ("assigned_spot_id", assigned_spot_id);
             ("spot_number", get_clean_value spot_number_attr);
             ("coordinates", coordinates);
             ("message", JStr "Spot reserved successfully.")]).

(** The part of [find_parking_spot] after the fetch: both loops and the
    answer. *)
Definition match_spots (preferences : BookingRequest) (all_spots : json) : result json :=
  spots <- py_iter all_spots ;;
  suitable_spots <- scan preferences spots [] ;;
  match suitable_spots with
  | [] => Ok no_spot_response
  | _ :: _ => respond (pick suitable_spots JNull None)
  end.

(** The spot the second loop leaves in [best_spot], when there is one. *)
Definition chosen_spot (preferences : BookingRequest) (spots : list json)
  : result (option json) :=
  suitable_spots <- scan preferences spots [] ;;
  match suitable_spots with
  | [] => Ok None
  | _ :: _ => Ok (Some (pick suitable_spots JNull None))
  end.

Local Close Scope result_scope.

(* ===================================================================== *)
(** ** The outside world: the context broker and the machine sockets *)
(* ===================================================================== *)

Inductive method : Type := GET | POST | PATCH | DELETE.

Record Request : Type := mkRequest {
  verb : method;
  url : string;
  params : list (string * string);
  headers : list (string * string);
  payload : option json
}.

(** What a call of [requests] comes back with: a response of the broker, or a
    transport failure (connection refused, timeout). *)
Inductive reply : Type :=
| Answer (r : Response)
| Unreachable (msg : string).

(** A machine's websocket, by identity. *)
Definition WebSocket : Type := nat.

(** What leaves the process, in the order it happens. *)
Inductive event : Type :=
| Exchange (rq : Request) (rp : reply)
| Delivered (ws : WebSocket) (message : json).

(** [send_json] raises on this socket: it is one of the closed ones. *)
Definition is_closed (closed : list WebSocket) (connection : WebSocket) : bool :=
  existsb (Nat.eqb connection) closed.

Definition ORION_URL : string := "http://127.0.0.1:1026/ngsi-ld/v1/entities".

(** [response.raise_for_status()] *)
Definition raise_for_status (r : Response) : result unit :=
  if (400 <=? status_code r) && (status_code r <? 500) then
    Raise (HTTPError (str_int (status_code r) ++ " Client Error: " ++ reason r
                        ++ " for url: " ++ resp_url r) r)
  else if (500 <=? status_code r) && (status_code r <? 600) then
    Raise (HTTPError (str_int (status_code r) ++ " Server Error: " ++ reason r
                        ++ " for url: " ++ resp_url r) r)
  else Ok tt.

(** [response.json()] *)
Definition response_json (r : Response) : result json :=
  match content r with
  | inr v => Ok v
  | inl msg => Raise (JSONDecodeError msg)
  end.

(** The literal both booking and clearing send, fixed timestamp included. *)
Definition status_update (value : string) : json :=
  JDict [("status", JDict [("type", JStr "Property"); ("value", JStr value)]);
         ("occupancyModified",
          JDict [("type", JStr "Property");
                 ("value", JDict [("@type", JStr "DateTime");
                                  ("@value", JStr "2023-10-27T12:00:00Z")])])].

(** [f"http://localhost:1026/ngsi-ld/v1/entities/{spot_id}/attrs"] *)
Definition attrs_url (spot_id : string) : string :=
  "http://localhost:1026/ngsi-ld/v1/entities/" ++ spot_id ++ "/attrs".

Definition json_headers : list (string * string) := [("Content-Type", "application/json")].
Definition ld_headers : list (string * string) := [("Accept", "application/ld+json")].

(** [requests.get(f"{ORION_URL}?type=SmartIndoorParkingSpot", headers=...)] *)
Definition list_request : Request :=
  mkRequest GET (ORION_URL ++ "?type=SmartIndoorParkingSpot") [] ld_headers None.

(** [requests.get(f"{ORION_URL}/{spot_id}", headers=...)] *)
Definition read_request (spot_id : string) : Request :=
  mkRequest GET (ORION_URL ++ "/" ++ spot_id) [] ld_headers None.

(** [requests.patch(url, json=update_payload, headers=...)] *)
Definition write_request (spot_id : string) (value : string) : Request :=
  mkRequest PATCH (attrs_url spot_id) [] json_headers (Some (status_update value)).

(** [requests.post(ORION_URL, json=garage_data, headers=...)] *)
Definition create_request (garage_data : json) : Request :=
  mkRequest POST ORION_URL [] json_headers (Some garage_data).

(** [requests.delete(f"{ORION_URL}/entities/{id}")] *)
Definition delete_request (id : string) : Request :=
  mkRequest DELETE (ORION_URL ++ "/entities/" ++ id) [] [] None.

(** The query of [delete_garage] for the spots of a garage:
    [requests.get(f"{ORION_URL}/entities", headers=HEADERS, params=params)] *)
Definition query_request (garage_id : string) : Request :=
  mkRequest GET (ORION_URL ++ "/entities")
    [("type", "SmartIndoorParkingSpot"); ("q", "refParkingGarage==" ++ garage_id)]
    ld_headers None.

(** [response['location']['value']['coordinates']] *)
Definition stored_coordinates (response : json) : result json :=
  (location <- py_item response "location" ;;
   value <- py_item location "value" ;;
   py_item value "coordinates")%result.

Section MissionControl.

(** The broker is any state machine answering requests. *)
Variable Broker : Type.
Variable orion : Request -> Broker -> reply * Broker.

(** [repr] of a value that is not a string, as an f-string prints it. *)
Variable py_repr : json -> string.

(** [f"{v}"] *)
Definition fmt (v : json) : string :=
  match v with
  | JStr s => s
  | _ => py_repr v
  end.

Record World : Type := mkWorld {
  broker : Broker;
  (** [manager.active_connections] *)
  active_connections : list WebSocket;
  (** the sockets on which [send_json] raises *)
  closed : list WebSocket;
  (** what [datetime.now().isoformat()] reads *)
  clock : string;
  wire : list event
}.

Definition emit (e : event) (w : World) : World :=
  mkWorld (broker w) (active_connections w) (closed w) (clock w) (wire w ++ [e]).

(** A handler: it runs in a world, returns or raises, and leaves a world. *)
Definition M (A : Type) : Type := World -> result A * World.

Definition ret {A : Type} (a : A) : M A := fun w => (Ok a, w).
Definition raise {A : Type} (e : exn) : M A := fun w => (Raise e, w).
Definition lift {A : Type} (r : result A) : M A := fun w => (r, w).

Definition bind {A B : Type} (m : M A) (k : A -> M B) : M B :=
  fun w =>
    match m w with
    | (Ok a, w') => k a w'
    | (Raise e, w') => (Raise e, w')
    end.

(** [try: m  except ... as e: handler e] *)
Definition try_except {A : Type} (m : M A) (handler : exn -> M A) : M A :=
  fun w =>
    match m w with
    | (Ok a, w') => (Ok a, w')
    | (Raise e, w') => handler e w'
    end.

Declare Scope io_scope.
Delimit Scope io_scope with io.
Notation "x <- m ;; k" := (bind m (fun x => k))
  (at level 100, m at next level, right associativity) : io_scope.
Local Open Scope io_scope.

(** One call of [requests]: the broker answers and moves on. *)
Definition request (rq : Request) : M Response :=
  fun w =>
    let (rp, b) := orion rq (broker w) in
    let w' := emit (Exchange rq rp)
                (mkWorld b (active_connections w) (closed w) (clock w) (wire w)) in
    match rp with
    | Answer r => (Ok r, w')
    | Unreachable msg => (Raise (RequestException msg), w')
    end.

(* --------------------------------------------------------------------- *)
(** *** [ConnectionManager] *)

(** [await websocket.accept()], itself a send on the socket, and the append. *)
Definition connect (websocket : WebSocket) : M unit :=
  fun w =>
    if is_closed (closed w) websocket then (Raise RuntimeError, w)
    else (Ok tt, mkWorld (broker w) (active_connections w ++ [websocket])
                   (closed w) (clock w) (wire w)).

(** [list.remove]: drops the first occurrence, [ValueError] when there is none. *)
Fixpoint list_remove (x : WebSocket) (l : list WebSocket) : option (list WebSocket) :=
  match l with
  | [] => None
  | y :: rest =>
      if Nat.eqb y x then Some rest
      else match list_remove x rest with
           | Some rest' => Some (y :: rest')
           | None => None
           end
  end.

Definition disconnect (websocket : WebSocket) : M unit :=
  fun w =>
    match list_remove websocket (active_connections w) with
    | Some l => (Ok tt, mkWorld (broker w) l (closed w) (clock w) (wire w))
    | None => (Raise ValueError, w)
    end.

(** What the [try] body of [machine_socket] can raise: starlette's
    [WebSocketDisconnect] when the machine has gone, or another exception. *)
Inductive thrown : Type :=
| WebSocketDisconnect (code : Z)
| Other (e : exn).

(** What one [await websocket.receive_text()] comes back with. *)
Inductive frame : Type :=
| Text (data : string)
| Throws (t : thrown).

(** How far a run of [machine_socket] has come when the frames are used up:
    still in the loop, through the [except] clause, or out with an error. *)
Inductive ending : Type :=
| Receiving
| Handled
| Propagated (t : thrown)
| NameError (name : string).

(** [while True: data = await websocket.receive_text()]: each text is bound
    to [data] and dropped; the loop ends when a receive raises. *)
Fixpoint receive_loop (inbox : list frame) : option thrown :=
  match inbox with
  | [] => None
  | Text data :: rest => receive_loop rest
  | Throws t :: _ => Some t
  end.

(** The names [main.py] binds at module level: its imports (lines 1 to 7),
    its assignments, classes and functions.  No builtin is called
    [WebSocketDisconnect]. *)
Definition module_names : list string :=
  ["FastAPI"; "HTTPException"; "Body"; "WebSocket"; "HTMLResponse"; "FileResponse";
   "BaseModel"; "requests"; "datetime"; "json"; "app"; "ORION_URL"; "BookingRequest";
   "get_clean_value"; "ConnectionManager"; "manager"; "home"; "machine_socket";
   "find_parking_spot"; "BookingConfirmation"; "book_parking_spot";
   "create_parking_garage"; "clear_parking_spot"; "clear_single_parking_spot";
   "delete_garage"].

(** Looking a name up in a namespace. *)
Definition is_bound (names : list string) (name : string) : bool :=
  existsb (String.eqb name) names.

(** [machine_socket] in a module that binds [names], for a machine that
    sends [inbox].  The socket is registered; the loop runs; when a receive
    raises, the clause [except WebSocketDisconnect] is evaluated: the name is
    looked up ([NameError] when it is unbound), an exception of that class
    runs [manager.disconnect(websocket)] and the [print], any other goes on
    up. *)
Definition machine_socket_in (names : list string) (websocket : WebSocket)
    (inbox : list frame) : World -> ending * World :=
  fun w =>
    match connect websocket w with
    | (Raise e, w') => (Propagated (Other e), w')
    | (Ok _, w') =>
        match receive_loop inbox with
        | None => (Receiving, w')
        | Some t =>
            if negb (is_bound names "WebSocketDisconnect") then
              (NameError "WebSocketDisconnect", w')
            else
              match t with
              | WebSocketDisconnect _ =>
                  match disconnect websocket w' with
                  | (Ok _, w'') => (Handled, w'')
                  | (Raise e, w'') => (Propagated (Other e), w'')
                  end
              | Other _ => (Propagated t, w')
              end
        end
    end.

(** [machine_socket] as [main.py] has it. *)
Definition machine_socket (websocket : WebSocket) (inbox : list frame)
  : World -> ending * World :=
  machine_socket_in module_names websocket inbox.

(** [await connection.send_json(payload)] *)
Definition send_json (connection : WebSocket) (message : json) : M unit :=
  fun w =>
    if is_closed (closed w) connection then (Raise RuntimeError, w)
    else (Ok tt, emit (Delivered connection message) w).

(** [for connection in ...: await connection.send_json(payload)] *)
Fixpoint send_all (connections : list WebSocket) (message : json) : M unit :=
  match connections with
  | [] => ret tt
  | connection :: rest =>
      _ <- send_json connection message ;;
      send_all rest message
  end.

Definition dispatch_event (spot_id : string) (coordinates : json) (timestamp : string) : json :=
  JDict [("event", JStr "NEW_BOOKING");
         ("spot_id", JStr spot_id);
         ("coordinates", coordinates);
         ("timestamp", JStr timestamp)].

(** Sends the target coordinates to all connected machines *)
Definition send_coordinates (spot_id : string) (coordinates : json) : M unit :=
  fun w =>
    let message := dispatch_event spot_id coordinates (clock w) in
    send_all (active_connections w) message w.

(* --------------------------------------------------------------------- *)
(** *** The handlers *)

Definition fetch_spots : M json :=
  try_except
    (response <- request list_request ;;
     _ <- lift (raise_for_status response) ;;
     lift (response_json response))
    (fun e => raise (HTTPException 500 ("Could not connect to FIWARE: " ++ exn_str e))).

(** Finds the best parking spot based on user preferences. *)
Definition find_parking_spot (preferences : BookingRequest) : M json :=
  all_spots <- fetch_spots ;;
  lift (match_spots preferences all_spots).

Definition locked_response (spot_id : string) : json :=
  JDict [("status", JStr "success");
         ("message", JStr ("Spot " ++ spot_id ++ " is now locked. Other users will not see it."))].

(** The [try] block around [requests.patch] with its two [except] clauses,
    as [book_parking_spot] and [clear_parking_spot] both spell it out. *)
Definition patch_status (spot_id : string) (value : string) : M Response :=
  try_except
    (response <- request (write_request spot_id value) ;;
     _ <- lift (raise_for_status response) ;;
     ret response)
    (fun e =>
       match e with
       | HTTPError _ response =>
           raise (HTTPException 400 ("Failed to update FIWARE: " ++ text response))
       | _ => raise (HTTPException 500 ("Connection Error: " ++ exn_str e))
       end).

(** Updates the Digital Twin status to 'occupied' so no one else can take it. *)
Definition book_parking_spot (spot_id : string) : M json :=
  response <-
    try_except
      (response <- request (read_request spot_id) ;;
       _ <- lift (raise_for_status response) ;;
       lift (response_json response))
      (fun e => raise (HTTPException 500 ("Could not connect to FIWARE: " ++ exn_str e))) ;;
  coords <- lift (stored_coordinates response) ;;
  _ <- patch_status spot_id "occupied" ;;
  _ <- send_coordinates spot_id coords ;;
  ret (locked_response spot_id).

(** Registers a new Parking Garage entity in the FIWARE Context Broker. *)
Definition create_parking_garage (garage_data : json) : M json :=
  try_except
    (response <- request (create_request garage_data) ;;
     if status_code response =? 201 then
       ret (JDict [("status", JStr "success");
                   ("message", JStr "Parking Garage registered successfully.")])
     else
       raise (HTTPException (status_code response) ("Orion Error: " ++ text response)))
    (fun e => raise (HTTPException 500 ("Connection Error: " ++ exn_str e))).

(** One turn of the loop of [clear_parking_spot]. *)
Definition clear_one (spot : json) : M unit :=
  spot_id <- lift (py_get spot "id") ;;
  status_attr <- lift (py_get spot "status") ;;
  let status := get_clean_value status_attr in
  category_attr <- lift (py_get spot "category") ;;
  let categories := get_clean_value category_attr in
  if negb (py_eq_str status "free") then
    _ <- patch_status (fmt spot_id) "free" ;;
    ret tt
  else ret tt.

Fixpoint clear_each (spots : list json) : M unit :=
  match spots with
  | [] => ret tt
  | spot :: rest =>
      _ <- clear_one spot ;;
      clear_each rest
  end.

Definition cleared_response (count : Z) : json :=
  JDict [("status", JStr "success");
         ("message", JStr (str_int count ++ " Spots are now free."))].

(** The handler of [/clear-all-spots]. *)
Definition clear_parking_spot : M json :=
  all_spots <- fetch_spots ;;
  spots <- lift (py_iter all_spots) ;;
  _ <- clear_each spots ;;
  count <- lift (py_len all_spots) ;;
  ret (cleared_response count).

(** Resets a specific parking spot status to 'free' in the Digital Twin. *)
Definition clear_single_parking_spot (spot_id : string) : M json :=
  _ <- try_except
         (response <- request (write_request spot_id "free") ;;
          _ <- (if status_code response =? 404 then
                  raise (HTTPException 404 ("Spot " ++ spot_id ++ " not found in FIWARE."))
                else ret tt) ;;
          lift (raise_for_status response))
         (fun e =>
            match e with
            | HTTPError _ response =>
                raise (HTTPException 400 ("Failed to update FIWARE: " ++ text response))
            | _ => raise (HTTPException 500 ("Connection Error: " ++ exn_str e))
            end) ;;
  ret (JDict [("status", JStr "success");
              ("message", JStr ("Spot " ++ spot_id
                                ++ " is now free and available for new bookings."))]).

(** [for spot in spots: ...] of [delete_garage], accumulating [deleted_spots]. *)
Fixpoint delete_each (spots : list json) (deleted_spots : list json) : M (list json) :=
  match spots with
  | [] => ret deleted_spots
  | spot :: rest =>
      spot_id <- lift (py_item spot "id") ;;
      del_resp <- request (delete_request (fmt spot_id)) ;;
      delete_each rest
        (if status_code del_resp =? 204 then deleted_spots ++ [spot_id]
         else deleted_spots)
  end.

Definition deleted_response (garage_id : string) (deleted_spots : list json) : json :=
  JDict [("message", JStr "Garage and related spots deleted successfully");
         ("garageId", JStr garage_id);
         ("deletedSpots", JList deleted_spots);
         ("spotsDeletedCount", JInt (Z.of_nat (List.length deleted_spots)))].

Definition delete_garage (garage_id : string) : M json :=
  try_except
    (resp <- request (query_request garage_id) ;;
     _ <- lift (raise_for_status resp) ;;
     spots <- lift (response_json resp) ;;
     items <- lift (py_iter spots) ;;
     deleted_spots <- delete_each items [] ;;
     garage_resp <- request (delete_request garage_id) ;;
     if negb (status_code garage_resp =? 204) then
       raise (HTTPException (status_code garage_resp) "Failed to delete ParkingGarage")
     else ret (deleted_response garage_id deleted_spots))
    (fun e =>
       if is_RequestException e then raise (HTTPException 500 (exn_str e))
       else raise e).

End MissionControl.

Arguments mkWorld {Broker} broker active_connections closed clock wire.
Arguments broker {Broker} w.
Arguments active_connections {Broker} w.
Arguments closed {Broker} w.
Arguments clock {Broker} w.
Arguments wire {Broker} w.
Arguments emit {Broker} e w.
Arguments ret {Broker A} a w.
Arguments raise {Broker A} e w.
Arguments lift {Broker A} r w.
Arguments bind {Broker A B} m k w.
Arguments try_except {Broker A} m handler w.
Arguments request {Broker} orion rq w.
Arguments connect {Broker} websocket w.
Arguments disconnect {Broker} websocket w.
Arguments machine_socket_in {Broker} names websocket inbox w.
Arguments machine_socket {Broker} websocket inbox w.
Arguments send_json {Broker} connection message w.
Arguments send_all {Broker} connections message w.
Arguments send_coordinates {Broker} spot_id coordinates w.
Arguments fetch_spots {Broker} orion w.
Arguments find_parking_spot {Broker} orion preferences w.
Arguments patch_status {Broker} orion spot_id value w.
Arguments book_parking_spot {Broker} orion spot_id w.
Arguments create_parking_garage {Broker} orion garage_data w.
Arguments clear_one {Broker} orion py_repr spot w.
Arguments clear_each {Broker} orion py_repr spots w.
Arguments clear_parking_spot {Broker} orion py_repr w.
Arguments clear_single_parking_spot {Broker} orion spot_id w.
Arguments delete_each {Broker} orion py_repr spots deleted_spots w.
Arguments delete_garage {Broker} orion py_repr garage_id w.

(* ===================================================================== *)
(** ** Vocabulary of the statements *)
(* ===================================================================== *)

(** An attribute of a spot as the loops read it:
    [get_clean_value(spot.get(name))]. *)
Definition attribute (spot : json) (name : string) : json :=
  match py_get spot name with
  | Ok a => get_clean_value a
  | Raise _ => JNull
  end.

(** [fields.get(name)] on the fields of a dict. *)
Definition attribute_raw (fields : list (string * json)) (name : string) : json :=
  match lookup name fields with
  | Some v => v
  | None => JNull
  end.

(** The spot carries a category tag: [tag in categories] is true. *)
Definition carries (tag : string) (spot : json) : bool :=
  match py_in tag (attribute spot "category") with
  | Ok b => b
  | Raise _ => false
  end.

Definition special_tags : list string := ["forElectricCharging"; "forDisabled"; "forWomen"].

(** The number of special category tags a spot carries. *)
Definition tag_count (spot : json) : Z :=
  Z.of_nat (List.length (filter (fun tag => carries tag spot) special_tags)).

(** The spot is appended to [suitable_spots] for this request. *)
Definition eligible (preferences : BookingRequest) (spot : json) : bool :=
  match examine preferences spot with
  | Ok (Some _) => true
  | _ => false
  end.

(** A spot entity the loops can read: a dict whose categories, if its status
    is free, support [in]. *)
Definition readable (spot : json) : bool :=
  match spot with
  | JDict _ =>
      if py_eq_str (attribute spot "status") "free" then
        match attribute spot "category" with
        | JStr _ | JList _ | JDict _ => true
        | _ => false
        end
      else true
  | _ => false
  end.

(** The status the broker answered with lets [raise_for_status] pass. *)
Definition accepted (rp : reply) : bool :=
  match rp with
  | Answer r => negb ((400 <=? status_code r) && (status_code r <? 600))
  | Unreachable _ => false
  end.

Definition is_delivery (e : event) : bool :=
  match e with
  | Delivered _ _ => true
  | Exchange _ _ => false
  end.

(** The messages the machines received, in order. *)
Definition deliveries (evs : list event) : list event := filter is_delivery evs.

(** The requests sent to the broker, in order. *)
Fixpoint requests_of (evs : list event) : list Request :=
  match evs with
  | [] => []
  | Exchange rq _ :: rest => rq :: requests_of rest
  | Delivered _ _ :: rest => requests_of rest
  end.

(** The store confirmed the write of [status = occupied] to the spot. *)
Definition confirms_booking (spot_id : string) (e : event) : Prop :=
  exists rp, e = Exchange (write_request spot_id "occupied") rp /\ accepted rp = true.

(** The entries the first loop appends, given what each turn produced. *)
Fixpoint kept (turns : list (option (json * Z))) : list (json * Z) :=
  match turns with
  | [] => []
  | Some entry :: rest => entry :: kept rest
  | None :: rest => kept rest
  end.

(** What the [try] block of a fetch evaluates to, given the broker's reply:
    [raise_for_status] and then [json()]. *)
Definition decoded (rp : reply) : result json :=
  match rp with
  | Answer r => (_ <- raise_for_status r ;; response_json r)%result
  | Unreachable msg => Raise (RequestException msg)
  end.

(** The broker's reply to a request sent from a world, and the world after
    the exchange. *)
Definition reply_to {Broker : Type} (orion : Request -> Broker -> reply * Broker)
    (rq : Request) (w : World Broker) : reply :=
  fst (orion rq (broker w)).

Definition after {Broker : Type} (orion : Request -> Broker -> reply * Broker)
    (rq : Request) (w : World Broker) : World Broker :=
  mkWorld (snd (orion rq (broker w))) (active_connections w) (closed w) (clock w)
    (wire w ++ [Exchange rq (reply_to orion rq w)]).

(** [spot.get("id")] *)
Definition id_of (spot : json) : json :=
  match py_get spot "id" with
  | Ok v => v
  | Raise _ => JNull
  end.

(** The loop of [clear_parking_spot] patches this spot. *)
Definition not_free (spot : json) : bool := negb (py_eq_str (attribute spot "status") "free").

Definition is_dict (v : json) : bool :=
  match v with
  | JDict _ => true
  | _ => false
  end.

(** The ids among the attempted deletions that the store answered with 204. *)
Definition confirmed_ids (outcomes : list (json * Response)) : list json :=
  map fst (filter (fun o => status_code (snd o) =? 204) outcomes).

(** The exchange that deletes one spot: the request and the store's answer. *)
Definition deletion (py_repr : json -> string) (o : json * Response) : event :=
  Exchange (delete_request (fmt py_repr (fst o))) (Answer (snd o)).

(** The URL of the request has the segment [/entities] twice in a row. *)
Definition doubled (rq : Request) : bool := is_substring "/entities/entities" (url rq).

(** The connections a broadcast reaches: those before the first closed one. *)
Fixpoint reached (closed : list WebSocket) (connections : list WebSocket) : list WebSocket :=
  match connections with
  | [] => []
  | connection :: rest =>
      if is_closed closed connection then [] else connection :: reached closed rest
  end.

(** What a handler leaves of the connection manager and its sockets. *)
Definition registry {Broker : Type} (w : World Broker)
  : list WebSocket * list WebSocket * string :=
  (active_connections w, closed w, clock w).

(** The handler leaves the registry as it found it. *)
Definition same_registry {Broker : Type} (w w' : World Broker) : Prop :=
  registry w' = registry w.

(** The handler leaves the registry and sends nothing to the machines. *)
Definition quiet {Broker : Type} (w w' : World Broker) : Prop :=
  registry w' = registry w /\ deliveries (wire w') = deliveries (wire w).

(** Every run of the handler relates the world it starts in to the world it
    leaves. *)
Definition preserves {Broker A : Type} (R : World Broker -> World Broker -> Prop)
    (m : World Broker -> result A * World Broker) : Prop :=
  forall w, R w (snd (m w)).

(** A spot in normalized NGSI-LD form and in simplified (key-values) form. *)
Definition normalized_spot (id : json) (status : string) (categories : list json) : json :=
  JDict [("id", id);
         ("status", JDict [("type", JStr "Property"); ("value", JStr status)]);
         ("category", JDict [("type", JStr "Property"); ("value", JList categories)])].

Definition simplified_spot (id : json) (status : string) (categories : list json) : json :=
  JDict [("id", id); ("status", JStr status); ("category", JList categories)].

(** The number of categories a request requires. *)
Definition required_count (preferences : BookingRequest) : Z :=
  (if requires_ev preferences then 1 else 0)
  + (if requires_disabled preferences then 1 else 0)
  + (if requires_female preferences then 1 else 0).

(** The position [find_parking_spot] reads off a spot:
    [location_data.get("coordinates") if location_data else [0,0]]. *)
Definition position_of (spot : json) : result json :=
  let location_data := attribute spot "location" in
  if truthy location_data then py_get location_data "coordinates"
  else Ok (JList [JInt 0; JInt 0]).

(** The answer of [find_parking_spot] for a best spot read at a position. *)
Definition assignment (best_spot coordinates : json) : json :=
  JDict [("status", JStr "success");
         ("assigned_spot_id", id_of best_spot);
         ("spot_number", attribute best_spot "spotNumber");
         ("coordinates", coordinates);
         ("message", JStr "Spot reserved successfully.")].

(* ===================================================================== *)
(** ** Brokers to run the handlers against *)
(* ===================================================================== *)

Definition answer (code : Z) (reason : string) (rq : Request) (body : string + json) : reply :=
  Answer (mkResponse code reason (url rq) "" body).

Definition no_body : string + json := inl "Expecting value: line 1 column 1 (char 0)".

Fixpoint dict_set (k : string) (v : json) (d : list (string * json)) : list (string * json) :=
  match d with
  | [] => [(k, v)]
  | (k', v') :: rest =>
      if (k' =? k)%string then (k, v) :: rest else (k', v') :: dict_set k v rest
  end.

Definition merge_attrs (attrs : list (string * json)) (entity : json) : json :=
  match entity with
  | JDict fields => JDict (fold_left (fun d kv => dict_set (fst kv) (snd kv) d) attrs fields)
  | _ => entity
  end.

(** The entity is a spot of the garage that the query parameter [q] names. *)
Definition refers_to (params : list (string * string)) (entity : json) : bool :=
  match py_get entity "refParkingGarage" with
  | Ok (JDict ref) =>
      match lookup "object" ref, find (fun kv => (fst kv =? "q")%string) params with
      | Some (JStr g), Some (_, q) => (q =? "refParkingGarage==" ++ g)%string
      | _, _ => false
      end
  | _ => false
  end.

(** An entity store keyed by id.  It lists, reads, patches and deletes
    entities, the latter at the URLs [delete_garage] builds.  With [guarded]
    set it refuses (409) to update the status of a spot that is already
    occupied, and to delete one; otherwise it applies every update and
    deletion of a known entity. *)
Definition entity_store (guarded : bool) (rq : Request) (entities : list (string * json))
  : reply * list (string * json) :=
  match verb rq with
  | GET =>
      if (url rq =? url list_request)%string then
        (answer 200 "OK" rq (inr (JList (map snd entities))), entities)
      else if (url rq =? url (query_request ""))%string then
        (answer 200 "OK" rq
           (inr (JList (map snd (filter (fun e => refers_to (params rq) (snd e)) entities)))),
         entities)
      else
        match find (fun e => (url rq =? url (read_request (fst e)))%string) entities with
        | Some e => (answer 200 "OK" rq (inr (snd e)), entities)
        | None => (answer 404 "Not Found" rq no_body, entities)
        end
  | PATCH =>
      match find (fun e => (url rq =? attrs_url (fst e))%string) entities, payload rq with
      | Some e, Some (JDict attrs) =>
          if guarded && py_eq_str (attribute (snd e) "status") "occupied" then
            (answer 409 "Conflict" rq no_body, entities)
          else
            (answer 204 "No Content" rq no_body,
             map (fun e' => if (fst e' =? fst e)%string
                            then (fst e', merge_attrs attrs (snd e')) else e') entities)
      | Some _, _ => (answer 400 "Bad Request" rq no_body, entities)
      | None, _ => (answer 404 "Not Found" rq no_body, entities)
      end
  | DELETE =>
      match find (fun e => (url rq =? url (delete_request (fst e)))%string) entities with
      | Some e =>
          if guarded && py_eq_str (attribute (snd e) "status") "occupied" then
            (answer 409 "Conflict" rq no_body, entities)
          else
            (answer 204 "No Content" rq no_body,
             filter (fun e' => negb (fst e' =? fst e)%string) entities)
      | None => (answer 404 "Not Found" rq no_body, entities)
      end
  | POST => (answer 405 "Method Not Allowed" rq no_body, entities)
  end.

(** A store that serves one fixed listing and says 204 to everything else. *)
Definition lenient_store (rq : Request) (listing : json) : reply * json :=
  match verb rq with
  | GET => (answer 200 "OK" rq (inr listing), listing)
  | _ => (answer 204 "No Content" rq no_body, listing)
  end.

(** A store that is down: no request gets an answer. *)
Definition down_store (rq : Request) (b : unit) : reply * unit :=
  (Unreachable "Connection refused", b).

(** A spot of a garage, and the garage. *)
Definition garage_spot (id status garage_id : string) : json :=
  JDict [("id", JStr id);
         ("type", JStr "SmartIndoorParkingSpot");
         ("status", JDict [("type", JStr "Property"); ("value", JStr status)]);
         ("refParkingGarage", JDict [("type", JStr "Relationship");
                                     ("object", JStr garage_id)])].

Definition garage (id : string) : json :=
  JDict [("id", JStr id); ("type", JStr "ParkingGarage")].

(** A spot as the broker serves it in NGSI-LD form. *)
Definition ngsi_spot (id status : string) (categories : list string)
    (location : option (Z * Z)) : json :=
  JDict ([("id", JStr id);
          ("type", JStr "SmartIndoorParkingSpot");
          ("status", JDict [("type", JStr "Property"); ("value", JStr status)]);
          ("category", JDict [("type", JStr "Property");
                              ("value", JList (map JStr categories))])]
         ++ match location with
            | Some (x, y) =>
                [("location",
                  JDict [("type", JStr "GeoProperty");
                         ("value", JDict [("type", JStr "Point");
                                          ("coordinates", JList [JInt x; JInt y])])])]
            | None => []
            end).

(** A world with nothing on the wire yet. *)
Definition world_of {Broker : Type} (b : Broker) (connections closed : list WebSocket)
  : World Broker :=
  mkWorld b connections closed "2024-05-01T09:30:00" [].

(** [repr] on the values the examples print: integers and [None]. *)
Definition repr_sample (v : json) : string :=
  match v with
  | JInt n => str_int n
  | JNull => "None"
  | _ => ""
  end.


(** Sample requests and spots. *)
Definition generic_request : BookingRequest := mkBookingRequest false false false.
Definition disabled_request : BookingRequest := mkBookingRequest true false false.

Definition spot_A : json := ngsi_spot "A" "free" [] (Some (3, 4)).
Definition spot_B : json := ngsi_spot "B" "free" ["forDisabled"] None.
Definition spot_E : json := ngsi_spot "E" "free" ["forElectricCharging"] (Some (5, 6)).
Definition spot_W : json :=
  ngsi_spot "W" "free" ["forElectricCharging"; "forWomen"] (Some (7, 8)).

(** A free spot the broker serves without a [category] attribute. *)
Definition spot_C : json :=
  JDict [("id", JStr "C");
         ("type", JStr "SmartIndoorParkingSpot");
         ("status", JDict [("type", JStr "Property"); ("value", JStr "free")])].

(** A store with garage G1, its two spots, and a spot of another garage. *)
Definition garage_G1 : list (string * json) :=
  [("S1", garage_spot "S1" "free" "G1");
   ("S2", garage_spot "S2" "occupied" "G1");
   ("T1", garage_spot "T1" "free" "G2");
   ("G1", garage "G1")].

(** A listing of three spots, the second one occupied. *)
Definition three_spots : json :=
  JList [spot_A; ngsi_spot "X" "occupied" [] (Some (1, 2)); spot_E].

(* ===================================================================== *)
(** ** The matching pass *)
(* ===================================================================== *)

Lemma py_eq_str_true v s : py_eq_str v s = true -> v = JStr s.
Proof.
  destruct v; simpl; try discriminate.
  intros H. apply String.eqb_eq in H. now subst.
Qed.

(** What a turn of the first loop that appends an entry says about the spot. *)
Lemma examine_appends preferences spot entry :
  examine preferences spot = Ok (Some entry) ->
  entry = (spot, tag_count spot) /\
  attribute spot "status" = JStr "free" /\
  (requires_ev preferences = true -> carries "forElectricCharging" spot = true) /\
  (requires_disabled preferences = true -> carries "forDisabled" spot = true) /\
  (requires_female preferences = true -> carries "forWomen" spot = true) /\
  (requires_disabled preferences = false -> requires_female preferences = false ->
   carries "forDisabled" spot = false /\ carries "forWomen" spot = false).
Proof.
  destruct spot as [| | | | | |fields]; try discriminate.
  unfold examine, tag_count, carries, special_tags, attribute. simpl py_get. cbv beta iota.
  unfold rbind at 1 2 3.
  set (status := get_clean_value _).
  set (categories := get_clean_value match lookup "category" fields with _ => _ end).
  destruct (py_eq_str status "free") eqn:Hfree; [|discriminate].
  apply py_eq_str_true in Hfree. cbv beta iota zeta. simpl negb. cbv iota.
  destruct (py_in "forElectricCharging" categories) as [ev|] eqn:Hev; [|discriminate].
  destruct (py_in "forDisabled" categories) as [dis|] eqn:Hdis; [|discriminate].
  destruct (py_in "forWomen" categories) as [wom|] eqn:Hwom; [|discriminate].
  destruct preferences as [rd rf re].
  destruct rd, rf, re, ev, dis, wom; simpl; rewrite ?Hev, ?Hdis, ?Hwom; simpl;
    intros H; inversion H; subst; repeat split; intros; try discriminate; auto.
Qed.

(** A spot whose status does not read as free is skipped, whatever else it
    holds. *)
Lemma examine_skips_not_free preferences fields :
  attribute (JDict fields) "status" <> JStr "free" ->
  examine preferences (JDict fields) = Ok None.
Proof.
  unfold examine, attribute. simpl py_get. unfold rbind at 1 2 3.
  intros H.
  destruct (py_eq_str _ "free") eqn:Hfree; [|reflexivity].
  apply py_eq_str_true in Hfree. contradiction.
Qed.

Lemma examine_readable preferences spot :
  readable spot = true -> exists turn, examine preferences spot = Ok turn.
Proof.
  destruct spot as [| | | | | |fields]; try discriminate.
  unfold readable, examine, attribute. simpl py_get. unfold rbind at 1 2 3.
  set (status := get_clean_value _).
  set (categories := get_clean_value match lookup "category" fields with _ => _ end).
  destruct (py_eq_str status "free"); [|intros _; eexists; reflexivity].
  destruct preferences as [rd rf re].
  destruct categories; try discriminate; intros _; simpl;
    repeat match goal with
           | |- context [if ?c then _ else _] => destruct c; simpl
           end; eexists; reflexivity.
Qed.


(** The first loop: each spot gets its turn, in order, and the entries are
    appended in that order. *)
Lemma scan_turns preferences spots : forall suitable_spots found,
  scan preferences spots suitable_spots = Ok found ->
  exists turns,
    Forall2 (fun spot turn => examine preferences spot = Ok turn) spots turns /\
    found = (suitable_spots ++ kept turns)%list.
Proof.
  induction spots as [|spot rest IH]; simpl; intros acc found H.
  - inversion H; subst. exists []. split; [constructor | now rewrite app_nil_r].
  - unfold rbind in H. destruct (examine preferences spot) as [turn|] eqn:Hturn; [|discriminate].
    apply IH in H. destruct H as (turns & Hall & ->).
    exists (turn :: turns). split; [constructor; assumption|].
    destruct turn; simpl; [rewrite <- app_assoc|]; reflexivity.
Qed.

Lemma scan_of_turns preferences spots turns :
  Forall2 (fun spot turn => examine preferences spot = Ok turn) spots turns ->
  forall suitable_spots,
    scan preferences spots suitable_spots = Ok (suitable_spots ++ kept turns)%list.
Proof.
  induction 1 as [|spot turn rest turns Hturn _ IH]; simpl; intros acc.
  - now rewrite app_nil_r.
  - rewrite Hturn. simpl. rewrite IH. destruct turn; simpl; [rewrite <- app_assoc|]; reflexivity.
Qed.

Lemma scan_readable preferences spots :
  Forall (fun spot => readable spot = true) spots ->
  exists turns, Forall2 (fun spot turn => examine preferences spot = Ok turn) spots turns.
Proof.
  induction 1 as [|spot rest Hspot _ (turns & IH)].
  - exists []. constructor.
  - destruct (examine_readable preferences spot Hspot) as (turn & Hturn).
    exists (turn :: turns). now constructor.
Qed.

(** The second loop keeps the first entry of least weight below the bound it
    starts with, or its starting spot when no entry is below the bound. *)
Lemma pick_first_least suitable_spots : forall best_spot min_weight,
  (exists before entry after,
      suitable_spots = (before ++ entry :: after)%list /\
      pick suitable_spots best_spot min_weight = fst entry /\
      below (snd entry) min_weight = true /\
      (forall x, In x before -> snd entry < snd x) /\
      (forall x, In x after -> snd entry <= snd x))
  \/ (pick suitable_spots best_spot min_weight = best_spot /\
      forall x, In x suitable_spots -> below (snd x) min_weight = false).
Proof.
  induction suitable_spots as [|[spot weight] rest IH]; intros best_spot min_weight.
  - right. split; [reflexivity | intros x []].
  - simpl pick. destruct (below weight min_weight) eqn:Hbelow.
    + left. destruct (IH spot (Some weight)) as
        [(before & entry & after & -> & Hpick & Hlow & Hbefore & Hafter) | (Hpick & Hnone)].
      * exists ((spot, weight) :: before), entry, after.
        simpl in Hlow. apply Z.ltb_lt in Hlow.
        repeat split; auto.
        -- destruct min_weight as [m|]; simpl in *; [|reflexivity].
           apply Z.ltb_lt in Hbelow. apply Z.ltb_lt. lia.
        -- intros x [<- | Hx]; simpl; auto.
      * exists [], (spot, weight), rest. repeat split; auto.
        -- intros x [].
        -- intros x Hx. apply Hnone in Hx. simpl in *. apply Z.ltb_ge in Hx. lia.
    + destruct (IH best_spot min_weight) as
        [(before & entry & after & -> & Hpick & Hlow & Hbefore & Hafter) | (Hpick & Hnone)].
      * left. exists ((spot, weight) :: before), entry, after.
        repeat split; auto.
        intros x [<- | Hx]; auto. simpl.
        destruct min_weight as [m|]; simpl in *; [|discriminate].
        apply Z.ltb_lt in Hlow. apply Z.ltb_ge in Hbelow. lia.
      * right. split; [assumption|]. intros x [<- | Hx]; auto.
Qed.

(** A place in the list of entries is a place in the list of spots. *)
Lemma kept_split preferences spots turns :
  Forall2 (fun spot turn => examine preferences spot = Ok turn) spots turns ->
  forall before entry after,
    kept turns = (before ++ entry :: after)%list ->
    exists spots_before spot spots_after turns_before turns_after,
      spots = (spots_before ++ spot :: spots_after)%list /\
      examine preferences spot = Ok (Some entry) /\
      Forall2 (fun spot turn => examine preferences spot = Ok turn) spots_before turns_before /\
      Forall2 (fun spot turn => examine preferences spot = Ok turn) spots_after turns_after /\
      kept turns_before = before /\ kept turns_after = after.
Proof.
  induction 1 as [|spot turn rest turns Hturn Hrest IH]; intros before entry after Hsplit.
  - destruct before; discriminate.
  - destruct turn as [e|]; simpl in Hsplit.
    + destruct before as [|b before]; simpl in Hsplit; inversion Hsplit; subst.
      * exists [], spot, rest, [], turns. repeat split; auto.
      * destruct (IH _ _ _ H1) as (sb & s & sa & tb & ta & -> & Hs & Hb & Ha & <- & <-).
        exists (spot :: sb), s, sa, (Some b :: tb), ta. repeat split; auto.
    + destruct (IH _ _ _ Hsplit) as (sb & s & sa & tb & ta & -> & Hs & Hb & Ha & <- & <-).
      exists (spot :: sb), s, sa, (None :: tb), ta. repeat split; auto.
Qed.


Lemma match_spots_chosen preferences spots :
  match_spots preferences (JList spots) =
  match chosen_spot preferences spots with
  | Ok (Some best_spot) => respond best_spot
  | Ok None => Ok no_spot_response
  | Raise e => Raise e
  end.
Proof.
  unfold match_spots, chosen_spot. simpl.
  destruct (scan preferences spots []) as [[|entry found]|]; reflexivity.
Qed.

Lemma chosen_spot_entry preferences spots best_spot :
  chosen_spot preferences spots = Ok (Some best_spot) ->
  exists turns before after,
    Forall2 (fun spot turn => examine preferences spot = Ok turn) spots turns /\
    kept turns = (before ++ (best_spot, tag_count best_spot) :: after)%list /\
    (forall x, In x before -> tag_count best_spot < snd x) /\
    (forall x, In x after -> tag_count best_spot <= snd x).
Proof.
  unfold chosen_spot, rbind. intros H.
  destruct (scan preferences spots []) as [found|] eqn:Hscan; [|discriminate].
  apply scan_turns in Hscan. destruct Hscan as (turns & Hturns & Hfound).
  simpl app in Hfound. subst found.
  destruct (pick_first_least (kept turns) JNull None)
    as [(before & entry & after & Hsplit & Hpick & _ & Hbefore & Hafter) | (_ & Hnone)].
  - assert (Hbest : best_spot = fst entry).
    { rewrite <- Hpick. destruct (kept turns); [discriminate H|].
      cbv iota in H. now inversion H. }
    destruct (kept_split _ _ _ Hturns _ _ _ Hsplit) as (_ & spot & _ & _ & _ & _ & Hspot & _).
    apply examine_appends in Hspot. destruct Hspot as (Hentry & _).
    rewrite Hentry in Hbest. simpl in Hbest. subst spot.
    rewrite Hentry in Hsplit, Hbefore, Hafter. simpl in Hbefore, Hafter.
    exists turns, before, after. auto.
  - destruct (kept turns) as [|first others]; [discriminate H|].
    specialize (Hnone first (or_introl eq_refl)). discriminate.
Qed.

(** C3. A spot that [find_parking_spot] answers with is one of the fetched
    spots, its status reads [free], it carries each category the request
    requires, and for a request that requires neither the disabled nor the
    women category it carries neither of them.  A free spot that carries only
    [forElectricCharging] is appended to [suitable_spots] for such a request,
    with weight 1. *)
Theorem matched_spot_meets_request :
  (forall preferences spots best_spot,
      chosen_spot preferences spots = Ok (Some best_spot) ->
      In best_spot spots /\
      match_spots preferences (JList spots) = respond best_spot /\
      attribute best_spot "status" = JStr "free" /\
      (requires_ev preferences = true -> carries "forElectricCharging" best_spot = true) /\
      (requires_disabled preferences = true -> carries "forDisabled" best_spot = true) /\
      (requires_female preferences = true -> carries "forWomen" best_spot = true) /\
      (requires_disabled preferences = false -> requires_female preferences = false ->
       carries "forDisabled" best_spot = false /\ carries "forWomen" best_spot = false)) /\
  (forall preferences spot,
      requires_disabled preferences = false -> requires_female preferences = false ->
      attribute spot "status" = JStr "free" ->
      carries "forElectricCharging" spot = true ->
      carries "forDisabled" spot = false ->
      carries "forWomen" spot = false ->
      examine preferences spot = Ok (Some (spot, 1))).
Proof.
  split.
  - intros preferences spots best_spot Hchosen.
    destruct (chosen_spot_entry _ _ _ Hchosen) as (turns & before & after & Hturns & Hsplit & _).
    destruct (kept_split _ _ _ Hturns _ _ _ Hsplit)
      as (sb & spot & sa & _ & _ & -> & Hspot & _).
    pose proof (examine_appends _ _ _ Hspot) as (Hentry & Hrest).
    assert (Heq : best_spot = spot) by congruence. subst spot.
    split; [apply in_elt|].
    split; [rewrite match_spots_chosen, Hchosen; reflexivity|].
    exact Hrest.
  - intros [rd rf re] spot Hd Hf Hfree Hev Hdis Hwom. simpl in Hd, Hf. subst rd rf.
    destruct spot as [| | | | | |fields]; try discriminate Hfree.
    unfold carries, attribute in *. simpl py_get in *. cbv iota in *.
    unfold examine. simpl py_get. unfold rbind at 1 2 3.
    rewrite Hfree. simpl py_eq_str. cbv iota beta zeta. simpl negb. cbv iota.
    remember (get_clean_value match lookup "category" fields with
                              | Some v => v
                              | None => JNull
                              end) as categories eqn:Hcategories.
    clear Hcategories.
    destruct categories; unfold py_in in *; cbv beta iota in Hev, Hdis, Hwom;
      try discriminate Hev; unfold rbind; cbv beta iota;
      rewrite Hev, Hdis, Hwom; destruct re; reflexivity.
Qed.

Lemma matched_spot_meets_request_witness :
  In spot_A [spot_A; spot_B] /\
  attribute spot_A "status" = JStr "free" /\
  carries "forDisabled" spot_A = false.
Proof.
  destruct (proj1 matched_spot_meets_request generic_request [spot_A; spot_B] spot_A eq_refl)
    as (Hin & _ & Hfree & _ & _ & _ & Hnone).
  destruct (Hnone eq_refl eq_refl) as (Hdis & _).
  exact (conj Hin (conj Hfree Hdis)).
Defined.


(** The scenarios of the matching pass: the general spot wins over the
    reserved one for a generic request, the reserved one is the only match for
    a request that needs it, the lighter of two eligible spots wins, and no
    free spot gives the failure answer. *)
Example generic_request_gets_A :
  chosen_spot generic_request [spot_A; spot_B] = Ok (Some spot_A).
Proof. reflexivity. Qed.

Example disabled_request_gets_B :
  chosen_spot disabled_request [spot_A; spot_B] = Ok (Some spot_B).
Proof. reflexivity. Qed.

Example lighter_reserved_spot_wins :
  chosen_spot (mkBookingRequest false true false)
    [spot_W; ngsi_spot "V" "free" ["forWomen"] None]
  = Ok (Some (ngsi_spot "V" "free" ["forWomen"] None))
  /\ chosen_spot generic_request [ngsi_spot "X" "occupied" [] None; spot_E; spot_A]
     = Ok (Some spot_A).
Proof. split; reflexivity. Qed.

Example no_free_spot :
  match_spots generic_request (JList [ngsi_spot "X" "occupied" [] None]) = Ok no_spot_response.
Proof. reflexivity. Qed.

(** A free spot whose categories do not support [in] makes its turn raise. *)
Lemma examine_unreadable preferences fields :
  readable (JDict fields) = false ->
  examine preferences (JDict fields) = Raise TypeError.
Proof.
  unfold readable, examine, attribute. simpl py_get. cbv iota. unfold rbind at 1 2 3.
  destruct (py_eq_str _ "free"); [|discriminate].
  remember (get_clean_value match lookup "category" fields with
                            | Some v => v
                            | None => JNull
                            end) as categories eqn:Hcategories.
  clear Hcategories. destruct categories; try discriminate; reflexivity.
Qed.

(** The scan stops at the first such spot, whatever came before and whatever
    follows. *)
Lemma scan_stops_at_unreadable preferences before fields after :
  Forall (fun spot => readable spot = true) before ->
  readable (JDict fields) = false ->
  forall suitable_spots,
    scan preferences (before ++ JDict fields :: after) suitable_spots = Raise TypeError.
Proof.
  intros Hbefore Hspot. induction Hbefore as [|spot rest Hreadable _ IH]; intros acc; simpl.
  - now rewrite (examine_unreadable _ _ Hspot).
  - destruct (examine_readable preferences spot Hreadable) as (turn & ->). simpl. apply IH.
Qed.

(** C5. A spot whose status does not read as free, missing status included,
    is skipped without an error.  A free spot without a readable [category]
    is not: [in] is applied to [None], the turn raises [TypeError], and the
    whole call raises it, whatever other spots were fetched.  Spot C, served
    without a [category], does this to a listing in which spot A is eligible. *)
Theorem free_spot_without_category_aborts_the_scan :
  (forall preferences fields,
      attribute (JDict fields) "status" <> JStr "free" ->
      examine preferences (JDict fields) = Ok None) /\
  (forall preferences before fields after,
      Forall (fun spot => readable spot = true) before ->
      readable (JDict fields) = false ->
      match_spots preferences (JList (before ++ JDict fields :: after)) = Raise TypeError) /\
  attribute spot_C "status" = JStr "free" /\
  attribute spot_C "category" = JNull /\
  eligible generic_request spot_A = true /\
  fst (find_parking_spot (entity_store false) generic_request
         (world_of [("A", spot_A); ("C", spot_C)] [] [])) = Raise TypeError.
Proof.
  split; [exact examine_skips_not_free|].
  split; [|repeat split].
  intros preferences before fields after Hbefore Hspot.
  unfold match_spots. simpl py_iter. unfold rbind at 1.
  now rewrite scan_stops_at_unreadable.
Qed.

(* ===================================================================== *)
(** ** Runs of the handlers *)
(* ===================================================================== *)

Lemma raise_for_status_accepted r :
  accepted (Answer r) = true -> raise_for_status r = Ok tt.
Proof.
  unfold accepted, raise_for_status.
  destruct (Z.leb_spec 400 (status_code r)), (Z.ltb_spec (status_code r) 500),
    (Z.leb_spec 500 (status_code r)), (Z.ltb_spec (status_code r) 600);
    cbn [andb negb]; intros Hacc; try reflexivity; try discriminate Hacc; lia.
Qed.

Lemma raise_for_status_rejected r :
  accepted (Answer r) = false -> exists msg, raise_for_status r = Raise (HTTPError msg r).
Proof.
  unfold accepted, raise_for_status.
  destruct (Z.leb_spec 400 (status_code r)), (Z.ltb_spec (status_code r) 500),
    (Z.leb_spec 500 (status_code r)), (Z.ltb_spec (status_code r) 600);
    cbn [andb negb]; intros Hacc; try discriminate Hacc; try (eexists; reflexivity); lia.
Qed.

Lemma decoded_accepted rp response : decoded rp = Ok response -> accepted rp = true.
Proof.
  destruct rp as [r|msg]; unfold decoded; [|discriminate].
  destruct (accepted (Answer r)) eqn:Ha; [reflexivity|].
  destruct (raise_for_status_rejected r Ha) as (msg & ->). discriminate.
Qed.

Section Runs.

Context {Broker : Type} (orion : Request -> Broker -> reply * Broker).

Lemma request_run rq (w : World Broker) :
  request orion rq w =
  (match reply_to orion rq w with
   | Answer r => Ok r
   | Unreachable msg => Raise (RequestException msg)
   end, after orion rq w).
Proof.
  unfold request, after, reply_to, emit.
  destruct (orion rq (broker w)) as [[r|msg] b]; reflexivity.
Qed.

(** A fetch inside its [try] block, with the handler's prefix. *)
Lemma guarded_fetch_run rq prefix (w : World Broker) :
  try_except
    (bind (request orion rq) (fun response =>
     bind (lift (raise_for_status response)) (fun _ =>
     lift (response_json response))))
    (fun e => raise (HTTPException 500 (prefix ++ exn_str e))) w =
  (match decoded (reply_to orion rq w) with
   | Ok v => Ok v
   | Raise e => Raise (HTTPException 500 (prefix ++ exn_str e))
   end, after orion rq w).
Proof.
  unfold try_except, bind. rewrite request_run.
  destruct (reply_to orion rq w) as [r|msg]; simpl; [|reflexivity].
  unfold lift. destruct (raise_for_status r) as [[]|e]; simpl; [|reflexivity].
  destruct (response_json r); reflexivity.
Qed.

Lemma fetch_spots_run (w : World Broker) :
  fetch_spots orion w =
  (match decoded (reply_to orion list_request w) with
   | Ok v => Ok v
   | Raise e => Raise (HTTPException 500 ("Could not connect to FIWARE: " ++ exn_str e))
   end, after orion list_request w).
Proof. apply guarded_fetch_run. Qed.

Lemma find_parking_spot_run preferences (w : World Broker) :
  find_parking_spot orion preferences w =
  (match decoded (reply_to orion list_request w) with
   | Ok all_spots => match_spots preferences all_spots
   | Raise e => Raise (HTTPException 500 ("Could not connect to FIWARE: " ++ exn_str e))
   end, after orion list_request w).
Proof.
  unfold find_parking_spot, bind. rewrite fetch_spots_run.
  destruct (decoded _); reflexivity.
Qed.

Lemma patch_status_run spot_id value (w : World Broker) :
  patch_status orion spot_id value w =
  (match reply_to orion (write_request spot_id value) w with
   | Answer r =>
       if accepted (Answer r) then Ok r
       else Raise (HTTPException 400 ("Failed to update FIWARE: " ++ text r))
   | Unreachable msg => Raise (HTTPException 500 ("Connection Error: " ++ msg))
   end, after orion (write_request spot_id value) w).
Proof.
  unfold patch_status, try_except, bind. rewrite request_run.
  destruct (reply_to orion _ w) as [r|msg]; [|reflexivity].
  unfold lift. destruct (accepted (Answer r)) eqn:Ha.
  - rewrite (raise_for_status_accepted r Ha). reflexivity.
  - destruct (raise_for_status_rejected r Ha) as (msg & ->). reflexivity.
Qed.

(** A broadcast reaches the connections before the first closed one, raises
    there, and touches nothing but the wire. *)
Lemma send_all_run connections message : forall w : World Broker,
  send_all connections message w =
  (if forallb (fun c => negb (is_closed (closed w) c)) connections
   then Ok tt else Raise RuntimeError,
   mkWorld (broker w) (active_connections w) (closed w) (clock w)
     (wire w ++ map (fun c => Delivered c message) (reached (closed w) connections))).
Proof.
  induction connections as [|c rest IH]; intros w; simpl.
  - unfold ret. rewrite app_nil_r. destruct w; reflexivity.
  - unfold bind, send_json.
    destruct (is_closed (closed w) c) eqn:Hc; simpl.
    + rewrite app_nil_r. destruct w; reflexivity.
    + rewrite IH. unfold emit. simpl. rewrite <- app_assoc. reflexivity.
Qed.

Lemma send_coordinates_run spot_id coordinates (w : World Broker) :
  send_coordinates spot_id coordinates w =
  (if forallb (fun c => negb (is_closed (closed w) c)) (active_connections w)
   then Ok tt else Raise RuntimeError,
   mkWorld (broker w) (active_connections w) (closed w) (clock w)
     (wire w ++ map (fun c => Delivered c (dispatch_event spot_id coordinates (clock w)))
                    (reached (closed w) (active_connections w)))).
Proof. unfold send_coordinates. apply send_all_run. Qed.

(** [book_parking_spot], step by step: the read, the coordinates, the write,
    the broadcast. *)
Lemma book_parking_spot_run spot_id (w : World Broker) :
  book_parking_spot orion spot_id w =
  let w1 := after orion (read_request spot_id) w in
  match decoded (reply_to orion (read_request spot_id) w) with
  | Raise e => (Raise (HTTPException 500 ("Could not connect to FIWARE: " ++ exn_str e)), w1)
  | Ok response =>
      match stored_coordinates response with
      | Raise e => (Raise e, w1)
      | Ok coords =>
          let w2 := after orion (write_request spot_id "occupied") w1 in
          match reply_to orion (write_request spot_id "occupied") w1 with
          | Unreachable msg => (Raise (HTTPException 500 ("Connection Error: " ++ msg)), w2)
          | Answer r =>
              if accepted (Answer r) then
                match send_coordinates spot_id coords w2 with
                | (Ok _, w3) => (Ok (locked_response spot_id), w3)
                | (Raise e, w3) => (Raise e, w3)
                end
              else (Raise (HTTPException 400 ("Failed to update FIWARE: " ++ text r)), w2)
          end
      end
  end.
Proof.
  unfold book_parking_spot. unfold bind at 1. rewrite guarded_fetch_run.
  destruct (decoded _) as [response|e]; [|reflexivity].
  unfold bind at 1, lift. destruct (stored_coordinates response) as [coords|e]; [|reflexivity].
  unfold bind at 1. rewrite patch_status_run. cbv zeta.
  destruct (reply_to orion (write_request spot_id "occupied") _) as [r|msg]; [|reflexivity].
  destruct (accepted (Answer r)); [|reflexivity].
  unfold bind, ret.
  destruct (send_coordinates spot_id coords _) as [[[]|e] w3]; reflexivity.
Qed.

End Runs.

(* ===================================================================== *)
(** ** The broadcast *)
(* ===================================================================== *)

Lemma deliveries_app evs evs' : deliveries (evs ++ evs') = (deliveries evs ++ deliveries evs')%list.
Proof. apply filter_app. Qed.

Lemma deliveries_sent message connections :
  deliveries (map (fun c => Delivered c message) connections)
  = map (fun c => Delivered c message) connections.
Proof. induction connections; simpl; [|rewrite IHconnections]; reflexivity. Qed.

Lemma reached_all_open closed connections :
  forallb (fun c => negb (is_closed closed c)) connections = true ->
  reached closed connections = connections.
Proof.
  induction connections as [|c rest IH]; simpl; [reflexivity|].
  destruct (is_closed closed c); simpl; [discriminate|].
  intros H. now rewrite IH.
Qed.

Lemma reached_until_closed closed before c rest :
  forallb (fun c => negb (is_closed closed c)) before = true ->
  is_closed closed c = true ->
  reached closed (before ++ c :: rest) = before /\
  forallb (fun c => negb (is_closed closed c)) (before ++ c :: rest) = false.
Proof.
  intros Hbefore Hc. induction before as [|b before IH]; simpl in *.
  - now rewrite Hc.
  - destruct (is_closed closed b); simpl in *; [discriminate|].
    destruct (IH Hbefore) as (-> & ->). auto.
Qed.

Section Broadcast.

Context {Broker : Type} (orion : Request -> Broker -> reply * Broker).

(** C7, as the code has it.  [send_coordinates] sends the event to the
    registered connections in list order.  When none is closed every one of
    them receives it once and the call returns.  At the first closed one the
    send raises: the call raises [RuntimeError], the connections after it
    receive nothing, and [active_connections] is what it was, the closed
    connection included. *)
Theorem broadcast_stops_at_first_closed_socket spot_id coordinates (w : World Broker) :
  let run := send_coordinates spot_id coordinates w in
  let message := dispatch_event spot_id coordinates (clock w) in
  active_connections (snd run) = active_connections w /\
  wire (snd run)
  = (wire w ++ map (fun c => Delivered c message)
                   (reached (closed w) (active_connections w)))%list /\
  (forallb (fun c => negb (is_closed (closed w) c)) (active_connections w) = true ->
   fst run = Ok tt /\
   reached (closed w) (active_connections w) = active_connections w) /\
  (forall before c rest,
      active_connections w = (before ++ c :: rest)%list ->
      forallb (fun c => negb (is_closed (closed w) c)) before = true ->
      is_closed (closed w) c = true ->
      fst run = Raise RuntimeError /\
      reached (closed w) (active_connections w) = before /\
      In c (active_connections (snd run))).
Proof.
  cbv zeta. rewrite send_coordinates_run. simpl.
  split; [reflexivity|]. split; [reflexivity|]. split.
  - intros Hopen. rewrite Hopen. split; [reflexivity|]. now apply reached_all_open.
  - intros before c rest Hsplit Hbefore Hc. rewrite Hsplit.
    destruct (reached_until_closed _ _ _ rest Hbefore Hc) as (-> & ->).
    repeat split. apply in_elt.
Qed.

(** [disconnect] is the one place a connection leaves the list. *)
Lemma disconnect_removes websocket rest (w : World Broker) :
  active_connections w = websocket :: rest ->
  disconnect websocket w
  = (Ok tt, mkWorld (broker w) rest (closed w) (clock w) (wire w)).
Proof.
  intros H. unfold disconnect. rewrite H. simpl. now rewrite Nat.eqb_refl.
Qed.

(** No message can be found among one or two exchanges. *)
Ltac no_delivery :=
  let H := fresh "H" in
  intros [|? [|? [|? ?]]] ? ? ? H; discriminate H.

(** An answer of 404 is not a decoded body. *)
Ltac not_404 H404 :=
  let H := fresh "H" in
  let Hr := fresh "Hr" in
  let H4 := fresh "H4" in
  intros ? Hr H4; destruct (H404 _ Hr H4) as (? & H); discriminate H.

(** C1. In [book_parking_spot] every message to a machine comes after the
    exchange in which the store accepted the write of [status = occupied].
    When the read of the spot fails (no answer, an error status such as 404
    for a spot that does not exist, a body that is not JSON) the call raises
    [HTTPException] 500; when the store rejects the PATCH it raises
    [HTTPException] 400 (500 when the store gives no answer); in general,
    without a confirmed write the call raises.  In each of these cases no
    message is sent. *)
Theorem broadcast_follows_confirmed_write spot_id (w : World Broker) :
  let run := book_parking_spot orion spot_id w in
  let read := reply_to orion (read_request spot_id) w in
  let w1 := after orion (read_request spot_id) w in
  let write := reply_to orion (write_request spot_id "occupied") w1 in
  exists evs,
    wire (snd run) = (wire w ++ evs)%list /\
    (forall before ws message rest,
        evs = (before ++ Delivered ws message :: rest)%list ->
        exists e, In e before /\ confirms_booking spot_id e) /\
    ((forall e, In e evs -> ~ confirms_booking spot_id e) ->
     (exists e, fst run = Raise e) /\ deliveries evs = []) /\
    (forall e, decoded read = Raise e ->
        fst run = Raise (HTTPException 500 ("Could not connect to FIWARE: " ++ exn_str e)) /\
        evs = [Exchange (read_request spot_id) read]) /\
    (forall r, read = Answer r -> status_code r = 404 ->
        (exists detail, fst run = Raise (HTTPException 500 detail)) /\
        evs = [Exchange (read_request spot_id) read]) /\
    (forall response coords,
        decoded read = Ok response ->
        stored_coordinates response = Ok coords ->
        accepted write = false ->
        fst run = Raise (match write with
                         | Answer r =>
                             HTTPException 400 ("Failed to update FIWARE: " ++ text r)
                         | Unreachable msg =>
                             HTTPException 500 ("Connection Error: " ++ msg)
                         end) /\
        evs = [Exchange (read_request spot_id) read;
               Exchange (write_request spot_id "occupied") write]).
Proof.
  cbv zeta. rewrite book_parking_spot_run. cbv zeta.
  set (read := reply_to orion (read_request spot_id) w).
  set (w1 := after orion (read_request spot_id) w).
  set (write := reply_to orion (write_request spot_id "occupied") w1).
  assert (H404 : forall r, read = Answer r -> status_code r = 404 ->
                           exists e, decoded read = Raise e).
  { intros r -> Hr. unfold decoded, raise_for_status. rewrite Hr. simpl. eexists; reflexivity. }
  destruct (decoded read) as [response|e] eqn:Hread.
  2:{ exists [Exchange (read_request spot_id) read]. split; [reflexivity|].
      split; [no_delivery|].
      split; [intros _; split; [eexists|]; reflexivity|].
      split; [intros e' H; inversion H; subst; split; reflexivity|].
      split; [intros r Hr H4; split; [eexists|]; reflexivity|].
      intros ? ? H; discriminate H. }
  destruct (stored_coordinates response) as [coords|e] eqn:Hcoords.
  2:{ exists [Exchange (read_request spot_id) read]. split; [reflexivity|].
      split; [no_delivery|].
      split; [intros _; split; [eexists|]; reflexivity|].
      split; [intros e' H; discriminate H|].
      split; [not_404 H404|].
      intros ? ? H1 H2; inversion H1; subst; rewrite Hcoords in H2; discriminate H2. }
  assert (Hwire : wire (after orion (write_request spot_id "occupied") w1)
                  = (wire w ++ [Exchange (read_request spot_id) read;
                                Exchange (write_request spot_id "occupied") write])%list).
  { simpl. rewrite <- app_assoc. reflexivity. }
  destruct (accepted write) eqn:Haccepted.
  2:{ exists [Exchange (read_request spot_id) read;
              Exchange (write_request spot_id "occupied") write].
      split; [destruct write; [rewrite Haccepted|]; exact Hwire|].
      split; [no_delivery|].
      split; [intros _; split; [destruct write; [rewrite Haccepted|]; eexists|]; reflexivity|].
      split; [intros e' H; discriminate H|].
      split; [not_404 H404|].
      intros ? ? _ _ _. destruct write; [rewrite Haccepted|]; split; reflexivity. }
  destruct write as [r|msg] eqn:Hwrite; [|discriminate Haccepted].
  rewrite Haccepted, send_coordinates_run.
  set (w2 := after orion (write_request spot_id "occupied") w1) in *.
  set (sent := map _ (reached (closed w2) (active_connections w2))).
  exists (Exchange (read_request spot_id) read
            :: Exchange (write_request spot_id "occupied") (Answer r) :: sent).
  assert (Hconfirmed : confirms_booking spot_id
                         (Exchange (write_request spot_id "occupied") (Answer r))).
  { exists (Answer r). split; [reflexivity | assumption]. }
  split.
  { destruct (forallb _ _); cbn [snd wire]; rewrite Hwire, <- app_assoc; reflexivity. }
  split.
  { intros [|e1 [|e2 before]] ws message rest H; try discriminate H.
    inversion H; subst. eexists; split; [right; left; reflexivity | assumption]. }
  split.
  { intros Hnone. exfalso. apply (Hnone _ (or_intror (or_introl eq_refl))). assumption. }
  split; [intros e' H; discriminate H|].
  split; [not_404 H404|].
  intros ? ? _ _ H. discriminate H.
Qed.

End Broadcast.

Lemma broadcast_follows_confirmed_write_witness :
  fst (book_parking_spot (entity_store true) "Z" (world_of [("A", spot_A)] [1; 2]%nat []))
  = Raise (HTTPException 500
             ("Could not connect to FIWARE: 404 Client Error: Not Found for url: "
              ++ ORION_URL ++ "/Z")).
Proof.
  destruct (broadcast_follows_confirmed_write (entity_store true) "Z"
              (world_of [("A", spot_A)] [1; 2]%nat []))
    as (evs & _ & _ & _ & Hread & _).
  exact (proj1 (Hread _ eq_refl)).
Defined.

(** A booking that goes through: both machines get the event, after the
    write. *)
Example booking_A_reaches_both_machines :
  let run := book_parking_spot (entity_store true) "A"
               (world_of [("A", spot_A)] [1; 2]%nat []) in
  fst run = Ok (locked_response "A") /\
  requests_of (wire (snd run)) = [read_request "A"; write_request "A" "occupied"] /\
  skipn 2 (wire (snd run))
  = map (fun c => Delivered c (dispatch_event "A" (JList [JInt 3; JInt 4])
                                 "2024-05-01T09:30:00")) [1; 2]%nat.
Proof. repeat split. Qed.

(** C7, as stated, fails: socket 2 is closed, socket 3 is open and registered
    after it.  The broadcast raises, socket 3 receives nothing, and socket 2 is
    still registered. *)
Lemma closed_socket_blocks_the_broadcast :
  let w := world_of tt [1; 2; 3]%nat [2]%nat in
  let run := send_coordinates "A" (JList [JInt 3; JInt 4]) w in
  fst run = Raise RuntimeError /\
  wire (snd run) = [Delivered 1%nat (dispatch_event "A" (JList [JInt 3; JInt 4]) (clock w))] /\
  ~ In 3%nat (map (fun e => match e with Delivered c _ => c | Exchange _ _ => 0%nat end)
                  (wire (snd run))) /\
  In 3%nat (active_connections w) /\ is_closed (closed w) 3%nat = false /\
  active_connections (snd run) = [1; 2; 3]%nat.
Proof.
  repeat split; try reflexivity.
  - simpl. intros [H | []]. discriminate H.
  - simpl. auto.
Qed.

Lemma broadcast_stops_at_first_closed_socket_witness :
  let w := world_of tt [1; 2; 3]%nat [2]%nat in
  fst (send_coordinates "A" (JList [JInt 3; JInt 4]) w) = Raise RuntimeError /\
  reached (closed w) (active_connections w) = [1%nat] /\
  In 2%nat (active_connections (snd (send_coordinates "A" (JList [JInt 3; JInt 4]) w))).
Proof.
  exact (proj2 (proj2 (proj2
           (broadcast_stops_at_first_closed_socket "A" (JList [JInt 3; JInt 4])
              (world_of tt [1; 2; 3]%nat [2]%nat))))
           [1%nat] 2%nat [3%nat] eq_refl eq_refl eq_refl).
Defined.

(* ===================================================================== *)
(** ** Booking the same spot twice *)
(* ===================================================================== *)

(** C2, as stated, fails: the handler never looks at the status it re-reads,
    so with a store that applies the update to an occupied spot as to any
    other the second call succeeds and both machines get a second event. *)
Lemma second_booking_broadcasts_again :
  let w := world_of [("A", spot_A)] [1; 2]%nat [] in
  let first := book_parking_spot (entity_store false) "A" w in
  let second := book_parking_spot (entity_store false) "A" (snd first) in
  fst first = Ok (locked_response "A") /\
  map (fun e => attribute (snd e) "status") (broker (snd first)) = [JStr "occupied"] /\
  fst second = Ok (locked_response "A") /\
  deliveries (wire (snd first))
  = map (fun c => Delivered c (dispatch_event "A" (JList [JInt 3; JInt 4]) (clock w)))
      [1; 2]%nat /\
  deliveries (wire (snd second))
  = map (fun c => Delivered c (dispatch_event "A" (JList [JInt 3; JInt 4]) (clock w)))
      [1; 2; 1; 2]%nat.
Proof. repeat split. Qed.

Section Rebooking.

Context {Broker : Type} (orion : Request -> Broker -> reply * Broker).

(** C2, as the code has it.  After a call for a spot that succeeded (every
    registered connection then got the event once), a second call for the
    same spot follows the store.  When the store does not accept the second
    write, the call raises and adds no message: [HTTPException] 400 or 500, or
    the error of reading coordinates off the re-read spot.  When the store
    accepts it, the call succeeds and every registered connection gets the
    event again: the handler does not look at the status it re-read. *)
Theorem rebooking_follows_the_store spot_id (w w1 : World Broker) first :
  book_parking_spot orion spot_id w = (Ok first, w1) ->
  let second := book_parking_spot orion spot_id w1 in
  let read := reply_to orion (read_request spot_id) w1 in
  let write := reply_to orion (write_request spot_id "occupied")
                 (after orion (read_request spot_id) w1) in
  (exists coords,
      deliveries (wire w1)
      = (deliveries (wire w)
         ++ map (fun c => Delivered c (dispatch_event spot_id coords (clock w)))
              (active_connections w))%list) /\
  (accepted write = false ->
   (exists e, fst second = Raise e /\
      ((exists code detail, e = HTTPException code detail /\ (code = 400 \/ code = 500)) \/
       (exists response, decoded read = Ok response /\ stored_coordinates response = Raise e)))
   /\ deliveries (wire (snd second)) = deliveries (wire w1)) /\
  (forall response coords,
      decoded read = Ok response ->
      stored_coordinates response = Ok coords ->
      accepted write = true ->
      fst second = Ok (locked_response spot_id) /\
      deliveries (wire (snd second))
      = (deliveries (wire w1)
         ++ map (fun c => Delivered c (dispatch_event spot_id coords (clock w1)))
              (active_connections w1))%list).
Proof.
  intros Hfirst. cbv zeta.
  assert (Hopen : forallb (fun c => negb (is_closed (closed w1) c)) (active_connections w1)
                  = true /\
                  exists coords,
                    deliveries (wire w1)
                    = (deliveries (wire w)
                       ++ map (fun c => Delivered c (dispatch_event spot_id coords (clock w)))
                            (active_connections w))%list).
  { rewrite book_parking_spot_run in Hfirst. cbv zeta in Hfirst.
    destruct (decoded _) as [response|]; [|discriminate Hfirst].
    destruct (stored_coordinates response) as [coords|]; [|discriminate Hfirst].
    destruct (reply_to orion (write_request spot_id "occupied") _) as [r|]; [|discriminate Hfirst].
    destruct (accepted (Answer r)); [|discriminate Hfirst].
    rewrite send_coordinates_run in Hfirst.
    destruct (forallb _ _) eqn:Hopen; [|discriminate Hfirst].
    rewrite (reached_all_open _ _ Hopen) in Hfirst.
    inversion Hfirst; subst. split; [exact Hopen|].
    exists coords. cbn [wire after active_connections clock].
    rewrite !deliveries_app, deliveries_sent. simpl. rewrite !app_nil_r. reflexivity. }
  destruct Hopen as (Hopen & Hsent).
  split; [exact Hsent|].
  rewrite book_parking_spot_run. cbv zeta. split.
  - intros Hrejected. split.
    + destruct (decoded _) as [response|e] eqn:Hread.
      2:{ eexists. split; [reflexivity|]. left. eauto. }
      destruct (stored_coordinates response) as [coords|e] eqn:Hcoords.
      2:{ eexists. split; [reflexivity|]. right. eauto. }
      destruct (reply_to orion (write_request spot_id "occupied") _) as [r|msg].
      2:{ eexists. split; [reflexivity|]. left. eauto. }
      rewrite Hrejected. eexists. split; [reflexivity|]. left. eauto.
    + destruct (decoded _) as [response|e];
        [|simpl; rewrite deliveries_app, app_nil_r; reflexivity].
      destruct (stored_coordinates response) as [coords|e];
        [|simpl; rewrite deliveries_app, app_nil_r; reflexivity].
      destruct (reply_to orion (write_request spot_id "occupied") _) as [r|msg];
        [rewrite Hrejected|]; simpl; rewrite !deliveries_app, !app_nil_r; reflexivity.
  - intros response coords -> -> Haccepted.
    destruct (reply_to orion (write_request spot_id "occupied") _) as [r|msg];
      [|discriminate Haccepted].
    rewrite Haccepted, send_coordinates_run.
    cbn [closed active_connections after clock].
    rewrite Hopen, (reached_all_open _ _ Hopen). split; [reflexivity|].
    cbn [snd wire after]. rewrite !deliveries_app, deliveries_sent. simpl.
    rewrite !app_nil_r. reflexivity.
Qed.

End Rebooking.

Lemma rebooking_follows_the_store_witness :
  let w := world_of [("A", spot_A)] [1; 2]%nat [] in
  let w1 := snd (book_parking_spot (entity_store true) "A" w) in
  let second := book_parking_spot (entity_store true) "A" w1 in
  (exists e, fst second = Raise e /\
     ((exists code detail, e = HTTPException code detail /\ (code = 400 \/ code = 500)) \/
      (exists response,
          decoded (reply_to (entity_store true) (read_request "A") w1) = Ok response /\
          stored_coordinates response = Raise e))) /\
  deliveries (wire (snd second)) = deliveries (wire w1).
Proof.
  exact (proj1 (proj2 (rebooking_follows_the_store (entity_store true) "A"
                         (world_of [("A", spot_A)] [1; 2]%nat [])
                         (snd (book_parking_spot (entity_store true) "A"
                                 (world_of [("A", spot_A)] [1; 2]%nat [])))
                         (locked_response "A") eq_refl)) eq_refl).
Defined.

(** With the guarded store the second call is refused with 400. *)
Example guarded_store_refuses_second_booking :
  let w := world_of [("A", spot_A)] [1; 2]%nat [] in
  let w1 := snd (book_parking_spot (entity_store true) "A" w) in
  fst (book_parking_spot (entity_store true) "A" w1)
  = Raise (HTTPException 400 "Failed to update FIWARE: ").
Proof. reflexivity. Qed.

(* ===================================================================== *)
(** ** Spots without coordinates *)
(* ===================================================================== *)

(** [find_parking_spot] answers with position [0, 0] for a best spot that has
    no [location] attribute. *)
Lemma respond_without_location fields :
  lookup "location" fields = None ->
  respond (JDict fields)
  = Ok (JDict [("status", JStr "success");
               ("assigned_spot_id", attribute_raw fields "id");
               ("spot_number", get_clean_value (attribute_raw fields "spotNumber"));
               ("coordinates", JList [JInt 0; JInt 0]);
               ("message", JStr "Spot reserved successfully.")]).
Proof. unfold respond, attribute_raw. simpl. intros ->. reflexivity. Qed.

Section Coordinates.

Context {Broker : Type} (orion : Request -> Broker -> reply * Broker).

(** [book_parking_spot] indexes the re-read spot: without a [location] key
    the call raises [KeyError] after the read, before any write. *)
Lemma booking_without_location spot_id fields (w : World Broker) :
  decoded (reply_to orion (read_request spot_id) w) = Ok (JDict fields) ->
  lookup "location" fields = None ->
  book_parking_spot orion spot_id w
  = (Raise (KeyError "location"), after orion (read_request spot_id) w).
Proof.
  intros Hread Hlocation. rewrite book_parking_spot_run. cbv zeta. rewrite Hread.
  unfold stored_coordinates. simpl. rewrite Hlocation. reflexivity.
Qed.

End Coordinates.

(** C6. Spot B is served without a [location].  [find_parking_spot] answers
    a request that B matches with coordinates [0, 0].  [book_parking_spot] on B
    does not fall back: it raises [KeyError], having sent the read only, no
    write and no message.  (A [location] without [coordinates] makes
    [find_parking_spot] answer [None] for the coordinates.) *)
Theorem booking_has_no_coordinates_fallback :
  let w := world_of [("B", spot_B)] [1; 2]%nat [] in
  (exists number,
      fst (find_parking_spot (entity_store false) disabled_request w)
      = Ok (JDict [("status", JStr "success");
                   ("assigned_spot_id", JStr "B");
                   ("spot_number", number);
                   ("coordinates", JList [JInt 0; JInt 0]);
                   ("message", JStr "Spot reserved successfully.")])) /\
  (let run := book_parking_spot (entity_store false) "B" w in
   fst run = Raise (KeyError "location") /\
   requests_of (wire (snd run)) = [read_request "B"] /\
   deliveries (wire (snd run)) = []) /\
  respond (JDict [("id", JStr "P");
                  ("location", JDict [("type", JStr "GeoProperty");
                                      ("value", JDict [("type", JStr "Point")])])])
  = Ok (JDict [("status", JStr "success");
               ("assigned_spot_id", JStr "P");
               ("spot_number", JNull);
               ("coordinates", JNull);
               ("message", JStr "Spot reserved successfully.")]).
Proof.
  cbv zeta. split; [eexists; reflexivity|]. split; [repeat split | reflexivity].
Qed.

(* ===================================================================== *)
(** ** Deleting a garage *)
(* ===================================================================== *)

Section GarageDeletion.

Context {Broker : Type} (orion : Request -> Broker -> reply * Broker).
Context (py_repr : json -> string).

(** The store answers every DELETE it gets, with whatever status. *)
Hypothesis delete_answered :
  forall rq b, verb rq = DELETE -> exists r, fst (orion rq b) = Answer r.

(** The loop attempts every spot, whatever the earlier answers were, and
    keeps the ids answered with 204. *)
Lemma delete_each_run spots ids :
  Forall2 (fun spot id => py_item spot "id" = Ok id) spots ids ->
  forall deleted_spots (w : World Broker),
  exists responses w',
    List.length responses = List.length spots /\
    delete_each orion py_repr spots deleted_spots w
    = (Ok (deleted_spots ++ confirmed_ids (combine ids responses))%list, w') /\
    wire w' = (wire w ++ map (deletion py_repr) (combine ids responses))%list.
Proof.
  induction 1 as [|spot id spots ids Hid _ IH]; intros deleted_spots w.
  - exists [], w. simpl. unfold ret. rewrite !app_nil_r. auto.
  - simpl delete_each. unfold bind at 1, lift. rewrite Hid.
    unfold bind at 1. rewrite request_run.
    destruct (delete_answered (delete_request (fmt py_repr id)) (broker w) eq_refl)
      as (r & Hr).
    unfold reply_to at 1. rewrite Hr.
    destruct (IH (if status_code r =? 204 then (deleted_spots ++ [id])%list else deleted_spots)
                (after orion (delete_request (fmt py_repr id)) w))
      as (responses & w' & Hlength & Hrun & Hwire).
    exists (r :: responses), w'. split; [simpl; now rewrite Hlength|].
    split.
    + rewrite Hrun. unfold confirmed_ids. simpl.
      destruct (status_code r =? 204); simpl; [rewrite <- app_assoc|]; reflexivity.
    + rewrite Hwire. simpl. unfold reply_to. rewrite Hr, <- app_assoc. reflexivity.
Qed.

(** C8. When the query for the garage's spots succeeds and the store answers
    each DELETE, [delete_garage] sends one DELETE per spot, in order, whatever
    the answers to the earlier ones, and then the DELETE of the garage.  When
    the garage's DELETE is answered 204 the call returns [deletedSpots], the
    ids whose own DELETE was answered 204, and their number as
    [spotsDeletedCount]; otherwise it raises [HTTPException] with the answer's
    status, whatever the spot deletions did. *)
Theorem garage_deletion_counts_confirmed_spots garage_id spots ids (w : World Broker) :
  decoded (reply_to orion (query_request garage_id) w) = Ok (JList spots) ->
  Forall2 (fun spot id => py_item spot "id" = Ok id) spots ids ->
  let run := delete_garage orion py_repr garage_id w in
  exists responses garage_resp,
    List.length responses = List.length spots /\
    wire (snd run)
    = (wire w
       ++ Exchange (query_request garage_id) (reply_to orion (query_request garage_id) w)
       :: map (deletion py_repr) (combine ids responses)
       ++ [Exchange (delete_request garage_id) (Answer garage_resp)])%list /\
    fst run
    = (if status_code garage_resp =? 204 then
         Ok (JDict [("message", JStr "Garage and related spots deleted successfully");
                    ("garageId", JStr garage_id);
                    ("deletedSpots", JList (confirmed_ids (combine ids responses)));
                    ("spotsDeletedCount",
                     JInt (Z.of_nat (List.length (confirmed_ids (combine ids responses)))))])
       else Raise (HTTPException (status_code garage_resp) "Failed to delete ParkingGarage")).
Proof.
  intros Hquery Hids. cbv zeta.
  destruct (delete_each_run spots ids Hids [] (after orion (query_request garage_id) w))
    as (responses & w' & Hlength & Hrun & Hwire).
  destruct (delete_answered (delete_request garage_id) (broker w') eq_refl) as (garage_resp & Hg).
  change (fst (orion (delete_request garage_id) (broker w')))
    with (reply_to orion (delete_request garage_id) w') in Hg.
  assert (Hall : delete_garage orion py_repr garage_id w
                 = (if status_code garage_resp =? 204 then
                      Ok (deleted_response garage_id (confirmed_ids (combine ids responses)))
                    else Raise (HTTPException (status_code garage_resp)
                                  "Failed to delete ParkingGarage"),
                    after orion (delete_request garage_id) w')).
  { unfold delete_garage, try_except. unfold bind at 1. rewrite request_run.
    unfold decoded in Hquery.
    destruct (reply_to orion (query_request garage_id) w) as [resp|msg]; [|discriminate Hquery].
    unfold rbind in Hquery. unfold bind at 1, lift.
    destruct (raise_for_status resp) as [[]|e]; [|discriminate Hquery].
    unfold bind at 1. rewrite Hquery. unfold bind at 1. simpl py_iter. cbv iota.
    unfold bind at 1. rewrite Hrun. unfold bind at 1. rewrite request_run, Hg.
    destruct (status_code garage_resp =? 204); reflexivity. }
  rewrite Hall. exists responses, garage_resp. split; [assumption|]. split.
  - cbn [snd wire after]. rewrite Hg, Hwire. cbn [wire after].
    rewrite <- !app_assoc. reflexivity.
  - destruct (status_code garage_resp =? 204); reflexivity.
Qed.

(** A spot deletion the store does not answer at all ends the call: the
    transport error reaches the handler's [except] clause. *)
Lemma unanswered_spot_deletion_aborts garage_id spot id rest msg (w : World Broker) :
  decoded (reply_to orion (query_request garage_id) w) = Ok (JList (spot :: rest)) ->
  py_item spot "id" = Ok id ->
  reply_to orion (delete_request (fmt py_repr id)) (after orion (query_request garage_id) w)
  = Unreachable msg ->
  fst (delete_garage orion py_repr garage_id w) = Raise (HTTPException 500 msg).
Proof.
  intros Hquery Hid Hdelete.
  unfold delete_garage, try_except. unfold bind at 1. rewrite request_run.
  unfold decoded in Hquery.
  destruct (reply_to orion (query_request garage_id) w) as [resp|]; [|discriminate Hquery].
  unfold rbind in Hquery. unfold bind at 1, lift.
  destruct (raise_for_status resp) as [[]|e]; [|discriminate Hquery].
  unfold bind at 1. rewrite Hquery. unfold bind at 1. simpl py_iter. cbv iota.
  unfold bind at 1. simpl delete_each. unfold bind at 1, lift. rewrite Hid.
  unfold bind at 1. rewrite request_run, Hdelete. reflexivity.
Qed.

End GarageDeletion.

Lemma garage_deletion_counts_confirmed_spots_witness :
  let run := delete_garage (entity_store true) repr_sample "G1" (world_of garage_G1 [] []) in
  exists responses garage_resp,
    List.length responses = 2%nat /\
    wire (snd run)
    = (Exchange (query_request "G1")
         (reply_to (entity_store true) (query_request "G1") (world_of garage_G1 [] []))
       :: map (deletion repr_sample) (combine [JStr "S1"; JStr "S2"] responses)
       ++ [Exchange (delete_request "G1") (Answer garage_resp)])%list /\
    fst run
    = (if status_code garage_resp =? 204 then
         Ok (JDict [("message", JStr "Garage and related spots deleted successfully");
                    ("garageId", JStr "G1");
                    ("deletedSpots",
                     JList (confirmed_ids (combine [JStr "S1"; JStr "S2"] responses)));
                    ("spotsDeletedCount",
                     JInt (Z.of_nat (List.length
                                       (confirmed_ids
                                          (combine [JStr "S1"; JStr "S2"] responses)))))])
       else Raise (HTTPException (status_code garage_resp) "Failed to delete ParkingGarage")).
Proof.
  refine (garage_deletion_counts_confirmed_spots (entity_store true) repr_sample _ "G1"
            [garage_spot "S1" "free" "G1"; garage_spot "S2" "occupied" "G1"]
            [JStr "S1"; JStr "S2"] (world_of garage_G1 [] []) eq_refl _).
  - intros rq b Hverb. unfold entity_store. rewrite Hverb.
    destruct (find _ b) as [e|]; [|eexists; reflexivity].
    destruct (true && _); eexists; reflexivity.
  - repeat constructor.
Defined.

(** The scenario: the deletion of S2 fails at the store, S1 and the garage are
    deleted; the call succeeds and reports S1 alone.  S2 stays in the store. *)
Example delete_G1_reports_S1 :
  let run := delete_garage (entity_store true) repr_sample "G1" (world_of garage_G1 [] []) in
  fst run = Ok (deleted_response "G1" [JStr "S1"]) /\
  requests_of (wire (snd run))
  = [query_request "G1"; delete_request "S1"; delete_request "S2"; delete_request "G1"] /\
  map fst (broker (snd run)) = ["S2"; "T1"].
Proof. repeat split. Qed.

(** The garage's own deletion fails after its spots were deleted: an error. *)
Example unknown_garage_is_an_error :
  let run := delete_garage (entity_store false) repr_sample "G1"
               (world_of [("S1", garage_spot "S1" "free" "G1")] [] []) in
  fst run = Raise (HTTPException 404 "Failed to delete ParkingGarage") /\
  broker (snd run) = [].
Proof. repeat split. Qed.

(* ===================================================================== *)
(** ** Freeing all spots *)
(* ===================================================================== *)

Lemma requests_of_app evs evs' :
  requests_of (evs ++ evs') = (requests_of evs ++ requests_of evs')%list.
Proof.
  induction evs as [|[rq rp|ws m] evs IH]; simpl; [reflexivity| |]; now rewrite IH.
Qed.

Section Clearing.

Context {Broker : Type} (orion : Request -> Broker -> reply * Broker).
Context (py_repr : json -> string).

Lemma requests_after rq (w : World Broker) :
  requests_of (wire (after orion rq w)) = (requests_of (wire w) ++ [rq])%list.
Proof. simpl. now rewrite requests_of_app. Qed.

(** One turn of the loop: a spot that is not free is patched, a free one is
    left alone. *)
Lemma clear_one_run fields (w : World Broker) :
  clear_one orion py_repr (JDict fields) w =
  if not_free (JDict fields) then
    (match reply_to orion (write_request (fmt py_repr (id_of (JDict fields))) "free") w with
     | Answer r =>
         if accepted (Answer r) then Ok tt
         else Raise (HTTPException 400 ("Failed to update FIWARE: " ++ text r))
     | Unreachable msg => Raise (HTTPException 500 ("Connection Error: " ++ msg))
     end,
     after orion (write_request (fmt py_repr (id_of (JDict fields))) "free") w)
  else (Ok tt, w).
Proof.
  unfold clear_one, not_free, attribute, id_of. simpl py_get. unfold bind at 1 2 3, lift.
  cbv beta iota zeta.
  destruct (negb (py_eq_str _ "free")); [|reflexivity].
  unfold bind. rewrite patch_status_run.
  destruct (reply_to orion _ w) as [r|msg]; [|reflexivity].
  destruct (accepted (Answer r)); reflexivity.
Qed.

Lemma clear_one_not_dict spot (w : World Broker) :
  is_dict spot = false -> clear_one orion py_repr spot w = (Raise AttributeError, w).
Proof. destruct spot; try discriminate; reflexivity. Qed.

(** Whatever happens, the loop sends status updates only. *)
Lemma clear_each_requests spots : forall w : World Broker,
  exists rqs,
    requests_of (wire (snd (clear_each orion py_repr spots w)))
    = (requests_of (wire w) ++ rqs)%list /\
    Forall (fun rq => exists id, rq = write_request id "free") rqs.
Proof.
  induction spots as [|spot rest IH]; intros w.
  - exists []. simpl. rewrite app_nil_r. auto.
  - simpl clear_each. unfold bind.
    destruct (is_dict spot) eqn:Hdict.
    + destruct spot; try discriminate Hdict. rewrite clear_one_run.
      destruct (not_free (JDict fields)).
      * set (rq := write_request _ "free").
        destruct (reply_to orion rq w) as [r|msg].
        -- destruct (accepted (Answer r)).
           ++ destruct (IH (after orion rq w)) as (rqs & Hrqs & Hall).
              exists (rq :: rqs). rewrite Hrqs, requests_after, <- app_assoc.
              split; [reflexivity|]. constructor; [eexists; reflexivity | assumption].
           ++ exists [rq]. cbn [snd]. rewrite requests_after.
              split; [reflexivity|]. repeat constructor. eexists; reflexivity.
        -- exists [rq]. cbn [snd]. rewrite requests_after.
           split; [reflexivity|]. repeat constructor. eexists; reflexivity.
      * apply IH.
    + rewrite (clear_one_not_dict _ _ Hdict). exists []. simpl. rewrite app_nil_r. auto.
Qed.

(** When the store accepts each update, the loop runs to its end and has
    patched the spots that were not free, in order. *)
Lemma clear_each_accepted spots :
  (forall rq b, verb rq = PATCH -> accepted (fst (orion rq b)) = true) ->
  Forall (fun spot => is_dict spot = true) spots ->
  forall w : World Broker,
  exists w',
    clear_each orion py_repr spots w = (Ok tt, w') /\
    requests_of (wire w')
    = (requests_of (wire w)
       ++ map (fun spot => write_request (fmt py_repr (id_of spot)) "free")
            (filter not_free spots))%list.
Proof.
  intros Haccepted. induction 1 as [|spot rest Hdict _ IH]; intros w.
  - exists w. simpl. rewrite app_nil_r. auto.
  - simpl clear_each. unfold bind. destruct spot; try discriminate Hdict.
    rewrite clear_one_run. simpl filter.
    destruct (not_free (JDict fields)); [|apply IH].
    set (rq := write_request _ "free").
    pose proof (Haccepted rq (broker w) eq_refl) as Hrq.
    change (fst (orion rq (broker w))) with (reply_to orion rq w) in Hrq.
    destruct (reply_to orion rq w) as [r|msg]; [|discriminate Hrq]. rewrite Hrq.
    destruct (IH (after orion rq w)) as (w' & Hrun & Hrqs).
    exists w'. split; [assumption|].
    rewrite Hrqs, requests_after, <- app_assoc. reflexivity.
Qed.

(** C10. The success message of [clear_parking_spot] counts the spots that
    were fetched: whenever the call returns, its message is
    [len(all_spots)] followed by [Spots are now free.].  When every fetched
    spot is an entity and the store accepts each update, the call does
    return, and it has patched only the spots that were not free. *)
Theorem cleared_count_is_fetched_count spots (w : World Broker) :
  decoded (reply_to orion list_request w) = Ok (JList spots) ->
  let run := clear_parking_spot orion py_repr w in
  (forall response,
      fst run = Ok response ->
      response = JDict [("status", JStr "success");
                        ("message", JStr (str_int (Z.of_nat (List.length spots))
                                          ++ " Spots are now free."))]) /\
  (Forall (fun spot => is_dict spot = true) spots ->
   (forall rq b, verb rq = PATCH -> accepted (fst (orion rq b)) = true) ->
   fst run = Ok (cleared_response (Z.of_nat (List.length spots))) /\
   requests_of (wire (snd run))
   = (requests_of (wire w)
      ++ list_request
      :: map (fun spot => write_request (fmt py_repr (id_of spot)) "free")
           (filter not_free spots))%list).
Proof.
  intros Hfetch. cbv zeta.
  assert (Hrun : clear_parking_spot orion py_repr w
                 = match clear_each orion py_repr spots (after orion list_request w) with
                   | (Ok _, w') => (Ok (cleared_response (Z.of_nat (List.length spots))), w')
                   | (Raise e, w') => (Raise e, w')
                   end).
  { unfold clear_parking_spot. unfold bind at 1. rewrite fetch_spots_run, Hfetch.
    unfold bind at 1, lift. simpl py_iter. cbv iota. unfold bind at 1.
    destruct (clear_each _ _ _ _) as [[[]|e] w']; reflexivity. }
  rewrite Hrun. split.
  - intros response. destruct (clear_each _ _ _ _) as [[[]|e] w']; simpl; intros H;
      inversion H. reflexivity.
  - intros Hdicts Haccepted.
    destruct (clear_each_accepted spots Haccepted Hdicts (after orion list_request w))
      as (w' & -> & Hrqs).
    split; [reflexivity|]. cbn [snd]. rewrite Hrqs, requests_after, <- app_assoc. reflexivity.
Qed.

End Clearing.

Lemma cleared_count_is_fetched_count_witness :
  let run := clear_parking_spot lenient_store repr_sample (world_of three_spots [] []) in
  fst run = Ok (cleared_response 3) /\
  requests_of (wire (snd run)) = [list_request; write_request "X" "free"].
Proof.
  refine (proj2 (cleared_count_is_fetched_count lenient_store repr_sample
                   [spot_A; ngsi_spot "X" "occupied" [] (Some (1, 2)); spot_E]
                   (world_of three_spots [] []) eq_refl) _ _).
  - repeat constructor.
  - intros rq b Hverb. unfold lenient_store. rewrite Hverb. reflexivity.
Defined.

(** Three spots fetched, one of them occupied: one update, and the message
    says three. *)
Example three_spots_reported_one_patched :
  let run := clear_parking_spot (entity_store false) repr_sample
               (world_of [("A", spot_A); ("X", ngsi_spot "X" "occupied" [] None);
                          ("E", spot_E)] [] []) in
  fst run = Ok (JDict [("status", JStr "success");
                       ("message", JStr "3 Spots are now free.")]) /\
  requests_of (wire (snd run)) = [list_request; write_request "X" "free"].
Proof. repeat split. Qed.

(* ===================================================================== *)
(** ** The URLs the handlers address *)
(* ===================================================================== *)

Lemma query_request_doubled garage_id : doubled (query_request garage_id) = true.
Proof. reflexivity. Qed.

Lemma delete_request_doubled id : doubled (delete_request id) = true.
Proof. reflexivity. Qed.

Section Addresses.

Context {Broker : Type} (orion : Request -> Broker -> reply * Broker).
Context (py_repr : json -> string).

Lemma delete_each_requests spots : forall deleted_spots (w : World Broker),
  exists rqs,
    requests_of (wire (snd (delete_each orion py_repr spots deleted_spots w)))
    = (requests_of (wire w) ++ rqs)%list /\
    Forall (fun rq => exists id, rq = delete_request id) rqs.
Proof.
  induction spots as [|spot rest IH]; intros deleted_spots w.
  - exists []. simpl. rewrite app_nil_r. auto.
  - simpl delete_each. unfold bind at 1, lift.
    destruct (py_item spot "id") as [id|e].
    2:{ exists []. simpl. rewrite app_nil_r. auto. }
    unfold bind at 1. rewrite request_run.
    set (rq := delete_request (fmt py_repr id)).
    destruct (reply_to orion rq w) as [r|msg].
    + destruct (IH (if status_code r =? 204 then (deleted_spots ++ [id])%list
                    else deleted_spots) (after orion rq w)) as (rqs & Hrqs & Hall).
      exists (rq :: rqs). rewrite Hrqs, (requests_after orion), <- app_assoc.
      split; [reflexivity|]. constructor; [eexists; reflexivity | assumption].
    + exists [rq]. cbn [snd]. rewrite (requests_after orion).
      split; [reflexivity|]. repeat constructor. eexists; reflexivity.
Qed.

Lemma delete_garage_requests garage_id (w : World Broker) :
  exists rqs,
    requests_of (wire (snd (delete_garage orion py_repr garage_id w)))
    = (requests_of (wire w) ++ query_request garage_id :: rqs)%list /\
    Forall (fun rq => exists id, rq = delete_request id) rqs.
Proof.
  assert (Hhandler : forall e (w' : World Broker),
             snd ((if is_RequestException e
                   then raise (A := json) (HTTPException 500 (exn_str e))
                   else raise e) w') = w').
  { intros e w'. destruct (is_RequestException e); reflexivity. }
  assert (Hstop : exists rqs : list Request,
             requests_of (wire (after orion (query_request garage_id) w))
             = (requests_of (wire w) ++ query_request garage_id :: rqs)%list /\
             Forall (fun rq => exists id, rq = delete_request id) rqs).
  { exists []. rewrite (requests_after orion). auto. }
  unfold delete_garage, try_except. unfold bind at 1. rewrite request_run.
  destruct (reply_to orion (query_request garage_id) w) as [resp|msg];
    [|rewrite Hhandler; exact Hstop].
  unfold bind at 1, lift.
  destruct (raise_for_status resp) as [[]|e]; [|rewrite Hhandler; exact Hstop].
  unfold bind at 1. destruct (response_json resp) as [spots|e]; [|rewrite Hhandler; exact Hstop].
  unfold bind at 1. destruct (py_iter spots) as [items|e]; [|rewrite Hhandler; exact Hstop].
  unfold bind at 1.
  destruct (delete_each_requests items [] (after orion (query_request garage_id) w))
    as (rqs & Hrqs & Hall).
  rewrite (requests_after orion), <- app_assoc in Hrqs. simpl app in Hrqs.
  destruct (delete_each orion py_repr items [] _) as [[deleted_spots|e] w'];
    [|rewrite Hhandler; exists rqs; auto].
  cbn [snd] in Hrqs.
  unfold bind at 1. rewrite request_run.
  assert (Hend : requests_of (wire (after orion (delete_request garage_id) w'))
                 = (requests_of (wire w)
                    ++ query_request garage_id :: rqs ++ [delete_request garage_id])%list).
  { rewrite (requests_after orion), Hrqs, <- app_assoc. reflexivity. }
  assert (Hall' : Forall (fun rq => exists id, rq = delete_request id)
                    (rqs ++ [delete_request garage_id])).
  { apply Forall_app. split; [assumption|]. repeat constructor. eexists; reflexivity. }
  destruct (reply_to orion (delete_request garage_id) w') as [r|msg].
  - destruct (negb (status_code r =? 204)); unfold raise, ret; cbn [snd];
      exists (rqs ++ [delete_request garage_id])%list; auto.
  - cbn [is_RequestException]. unfold raise. cbn [snd].
    exists (rqs ++ [delete_request garage_id])%list; auto.
Qed.

Lemma book_parking_spot_requests spot_id (w : World Broker) :
  exists rqs,
    requests_of (wire (snd (book_parking_spot orion spot_id w)))
    = (requests_of (wire w) ++ read_request spot_id :: rqs)%list /\
    (rqs = [] \/ rqs = [write_request spot_id "occupied"]).
Proof.
  rewrite book_parking_spot_run. cbv zeta.
  assert (Hwrite : requests_of (wire (after orion (write_request spot_id "occupied")
                                        (after orion (read_request spot_id) w)))
                   = (requests_of (wire w)
                      ++ [read_request spot_id; write_request spot_id "occupied"])%list).
  { rewrite !(requests_after orion), <- app_assoc. reflexivity. }
  destruct (decoded _) as [response|e];
    [|exists []; cbn [snd]; rewrite (requests_after orion); auto].
  destruct (stored_coordinates response) as [coords|e];
    [|exists []; cbn [snd]; rewrite (requests_after orion); auto].
  exists [write_request spot_id "occupied"]. split; [|auto].
  destruct (reply_to orion (write_request spot_id "occupied") _) as [r|msg];
    [|exact Hwrite].
  destruct (accepted (Answer r)); [|exact Hwrite].
  rewrite send_coordinates_run.
  destruct (forallb _ _); cbn [snd wire]; rewrite requests_of_app, Hwrite;
    (replace (requests_of (map _ _)) with (@nil Request);
     [now rewrite app_nil_r | induction (reached _ _); simpl; auto]).
Qed.

Lemma clear_single_parking_spot_requests spot_id (w : World Broker) :
  requests_of (wire (snd (clear_single_parking_spot orion spot_id w)))
  = (requests_of (wire w) ++ [write_request spot_id "free"])%list.
Proof.
  unfold clear_single_parking_spot. unfold bind at 1, try_except. unfold bind at 1.
  rewrite request_run, <- (requests_after orion).
  destruct (reply_to orion _ w) as [r|msg]; [|reflexivity].
  unfold bind at 1. destruct (status_code r =? 404); [reflexivity|].
  unfold ret, lift. destruct (raise_for_status r) as [[]|[]]; reflexivity.
Qed.

Lemma create_parking_garage_requests garage_data (w : World Broker) :
  requests_of (wire (snd (create_parking_garage orion garage_data w)))
  = (requests_of (wire w) ++ [create_request garage_data])%list.
Proof.
  unfold create_parking_garage, try_except, bind.
  rewrite request_run, <- (requests_after orion).
  destruct (reply_to orion _ w) as [r|msg]; [|reflexivity].
  destruct (status_code r =? 201); reflexivity.
Qed.

Lemma clear_parking_spot_requests (w : World Broker) :
  exists rqs,
    requests_of (wire (snd (clear_parking_spot orion py_repr w)))
    = (requests_of (wire w) ++ list_request :: rqs)%list /\
    Forall (fun rq => exists id, rq = write_request id "free") rqs.
Proof.
  unfold clear_parking_spot. unfold bind at 1. rewrite fetch_spots_run.
  assert (Hstop : exists rqs : list Request,
             requests_of (wire (after orion list_request w))
             = (requests_of (wire w) ++ list_request :: rqs)%list /\
             Forall (fun rq => exists id, rq = write_request id "free") rqs).
  { exists []. rewrite (requests_after orion). auto. }
  destruct (decoded _) as [all_spots|e]; [|exact Hstop].
  unfold bind at 1, lift. destruct (py_iter all_spots) as [spots|e]; [|exact Hstop].
  unfold bind at 1.
  destruct (clear_each_requests orion py_repr spots (after orion list_request w))
    as (rqs & Hrqs & Hall).
  rewrite (requests_after orion), <- app_assoc in Hrqs. simpl app in Hrqs.
  destruct (clear_each orion py_repr spots _) as [[[]|e] w']; cbn [snd] in *;
    [|exists rqs; auto].
  unfold bind, ret. destruct (py_len all_spots); exists rqs; auto.
Qed.

(** C9, as the code has it.  [delete_garage] asks for the spots at
    [ORION_URL + "/entities"] and deletes at [ORION_URL + "/entities/" + id]:
    every request it sends is one of these, and its URL has the segment
    [/entities] twice in a row.  The other handlers add no such segment:
    [find_parking_spot] and [clear_parking_spot] list at
    [ORION_URL + "?type=SmartIndoorParkingSpot"], [create_parking_garage]
    posts to [ORION_URL], [book_parking_spot] reads at [ORION_URL + "/" + id];
    the status updates of [book_parking_spot], [clear_parking_spot] and
    [clear_single_parking_spot] go to the literal
    [http://localhost:1026/ngsi-ld/v1/entities/{id}/attrs], not to
    [ORION_URL]. *)
Theorem delete_garage_doubles_entities_segment (w : World Broker) :
  (forall garage_id, url (query_request garage_id) = ORION_URL ++ "/entities") /\
  (forall id, url (delete_request id) = ORION_URL ++ "/entities/" ++ id) /\
  (forall garage_id,
      exists rqs,
        requests_of (wire (snd (delete_garage orion py_repr garage_id w)))
        = (requests_of (wire w) ++ query_request garage_id :: rqs)%list /\
        Forall (fun rq => exists id, rq = delete_request id) rqs /\
        Forall (fun rq => doubled rq = true) (query_request garage_id :: rqs)) /\
  (forall preferences,
      requests_of (wire (snd (find_parking_spot orion preferences w)))
      = (requests_of (wire w) ++ [list_request])%list) /\
  (forall garage_data,
      requests_of (wire (snd (create_parking_garage orion garage_data w)))
      = (requests_of (wire w) ++ [create_request garage_data])%list) /\
  (forall spot_id,
      exists rqs,
        requests_of (wire (snd (book_parking_spot orion spot_id w)))
        = (requests_of (wire w) ++ read_request spot_id :: rqs)%list /\
        (rqs = [] \/ rqs = [write_request spot_id "occupied"])) /\
  (forall spot_id,
      requests_of (wire (snd (clear_single_parking_spot orion spot_id w)))
      = (requests_of (wire w) ++ [write_request spot_id "free"])%list) /\
  (exists rqs,
      requests_of (wire (snd (clear_parking_spot orion py_repr w)))
      = (requests_of (wire w) ++ list_request :: rqs)%list /\
      Forall (fun rq => exists id, rq = write_request id "free") rqs) /\
  url list_request = ORION_URL ++ "?type=SmartIndoorParkingSpot" /\
  doubled list_request = false /\
  (forall garage_data,
      url (create_request garage_data) = ORION_URL /\
      doubled (create_request garage_data) = false) /\
  (forall spot_id, url (read_request spot_id) = ORION_URL ++ "/" ++ spot_id) /\
  (forall spot_id value,
      url (write_request spot_id value)
      = "http://localhost:1026/ngsi-ld/v1/entities/" ++ spot_id ++ "/attrs").
Proof.
  split; [reflexivity|]. split; [reflexivity|].
  split.
  { intros garage_id. destruct (delete_garage_requests garage_id w) as (rqs & Hrqs & Hall).
    exists rqs. split; [assumption|]. split; [assumption|].
    constructor; [reflexivity|].
    eapply Forall_impl; [|exact Hall]. intros rq (id & ->). reflexivity. }
  split.
  { intros preferences. rewrite find_parking_spot_run. apply requests_after. }
  split; [intros garage_data; apply create_parking_garage_requests|].
  split; [intros spot_id; apply book_parking_spot_requests|].
  split; [intros spot_id; apply clear_single_parking_spot_requests|].
  split; [apply clear_parking_spot_requests|].
  repeat split.
Qed.

End Addresses.

(** C9, as stated, fails: clearing spot A sends its one request to a URL
    that does not begin with [ORION_URL], nor contains it. *)
Lemma clearing_a_spot_does_not_address_ORION_URL :
  let run := clear_single_parking_spot (entity_store false) "A"
               (world_of [("A", spot_A)] [] []) in
  fst run = Ok (JDict [("status", JStr "success");
                       ("message",
                        JStr "Spot A is now free and available for new bookings.")]) /\
  requests_of (wire (snd run)) = [write_request "A" "free"] /\
  url (write_request "A" "free") = "http://localhost:1026/ngsi-ld/v1/entities/A/attrs" /\
  prefix ORION_URL (url (write_request "A" "free")) = false /\
  is_substring ORION_URL (url (write_request "A" "free")) = false.
Proof. repeat split. Qed.

(* ===================================================================== *)
(** ** More on the matching pass *)
(* ===================================================================== *)


Lemma scan_filtered preferences spots turns :
  Forall2 (fun spot turn => examine preferences spot = Ok turn) spots turns ->
  forall suitable_spots,
    scan preferences (filter (eligible preferences) spots) suitable_spots
    = Ok (suitable_spots ++ kept turns)%list.
Proof.
  induction 1 as [|spot turn rest turns Hturn _ IH]; intros acc; simpl.
  - now rewrite app_nil_r.
  - unfold eligible at 1. rewrite Hturn. destruct turn as [entry|]; simpl.
    + rewrite Hturn. simpl. rewrite IH, <- app_assoc. reflexivity.
    + apply IH.
Qed.

(** X1. The spots that are not eligible (occupied, reserved for others, short
    of a required category) have no say in the choice: dropping them from a
    readable listing leaves the chosen spot as it is. *)
Theorem ineligible_spots_do_not_matter preferences spots :
  Forall (fun spot => readable spot = true) spots ->
  chosen_spot preferences (filter (eligible preferences) spots)
  = chosen_spot preferences spots.
Proof.
  intros Hreadable.
  destruct (scan_readable preferences spots Hreadable) as (turns & Hturns).
  unfold chosen_spot.
  now rewrite (scan_filtered _ _ _ Hturns), (scan_of_turns _ _ _ Hturns).
Qed.

Lemma ineligible_spots_do_not_matter_witness :
  chosen_spot generic_request (filter (eligible generic_request) [spot_W; spot_B; spot_E; spot_A])
  = chosen_spot generic_request [spot_W; spot_B; spot_E; spot_A].
Proof.
  apply ineligible_spots_do_not_matter. repeat constructor.
Defined.



(** X3. What a request can be given: an eligible spot carries at least as
    many special tags as the request requires categories, and for a request
    that requires neither the disabled nor the women category it carries at
    most one, [forElectricCharging]. *)
Theorem eligible_weight_bounds preferences spot :
  eligible preferences spot = true ->
  required_count preferences <= tag_count spot /\
  (requires_disabled preferences = false -> requires_female preferences = false ->
   tag_count spot <= 1 /\
   (tag_count spot = 1 -> carries "forElectricCharging" spot = true)).
Proof.
  unfold eligible. destruct (examine preferences spot) as [[entry|]|] eqn:Hspot; try discriminate.
  intros _. apply examine_appends in Hspot.
  destruct Hspot as (_ & _ & Hev & Hdis & Hwom & Hnone).
  unfold required_count, tag_count, special_tags. simpl filter.
  destruct preferences as [rd rf re]. simpl in *.
  destruct (carries "forElectricCharging" spot), (carries "forDisabled" spot),
    (carries "forWomen" spot), rd, rf, re; simpl;
    repeat match goal with
           | H : true = true -> _ |- _ => specialize (H eq_refl)
           | H : false = false -> _ |- _ => specialize (H eq_refl)
           | H : _ /\ _ |- _ => destruct H
           end;
    try discriminate; repeat split; intros; try discriminate; auto; lia.
Qed.

Lemma eligible_weight_bounds_witness :
  required_count (mkBookingRequest false true true) <= tag_count spot_W.
Proof.
  exact (proj1 (eligible_weight_bounds (mkBookingRequest false true true) spot_W eq_refl)).
Defined.

(** X4. The two handlers read the same position: whenever [book_parking_spot]
    can take the coordinates off a spot, [find_parking_spot] answers with
    these coordinates for it. *)
Theorem find_and_book_read_the_same_coordinates spot coords :
  stored_coordinates spot = Ok coords ->
  respond spot
  = Ok (JDict [("status", JStr "success");
               ("assigned_spot_id", id_of spot);
               ("spot_number", attribute spot "spotNumber");
               ("coordinates", coords);
               ("message", JStr "Spot reserved successfully.")]).
Proof.
  unfold stored_coordinates, respond, id_of, attribute, rbind.
  destruct spot as [| | | | | |fields]; try discriminate. simpl py_item. simpl py_get.
  destruct (lookup "location" fields) as [location|]; [|discriminate].
  destruct location as [| | | | | |lf]; try discriminate. simpl py_item.
  destruct (lookup "value" lf) as [value|] eqn:Hvalue; [|discriminate].
  destruct value as [| | | | | |vf]; try discriminate. simpl py_item.
  destruct (lookup "coordinates" vf) as [c|] eqn:Hc; [|discriminate].
  intros H. inversion H; subst.
  assert (Hlf : truthy (JDict lf) = true) by (destruct lf; [discriminate Hvalue | reflexivity]).
  assert (Hvf : truthy (JDict vf) = true) by (destruct vf; [discriminate Hc | reflexivity]).
  assert (Hclean : get_clean_value (JDict lf) = JDict vf).
  { unfold get_clean_value. now rewrite Hlf, Hvalue. }
  rewrite Hclean, Hvf. cbn [py_get]. rewrite Hc. reflexivity.
Qed.

Lemma find_and_book_read_the_same_coordinates_witness :
  respond spot_A
  = Ok (JDict [("status", JStr "success");
               ("assigned_spot_id", id_of spot_A);
               ("spot_number", attribute spot_A "spotNumber");
               ("coordinates", JList [JInt 3; JInt 4]);
               ("message", JStr "Spot reserved successfully.")]).
Proof.
  exact (find_and_book_read_the_same_coordinates spot_A (JList [JInt 3; JInt 4]) eq_refl).
Defined.

(** X5. The two forms of a free spot.  With a category list that is not empty
    the simplified form (bare values) is matched like the normalized form
    (values wrapped as properties): same eligibility, same weight.  With the
    empty list the forms part: [get_clean_value] turns the bare empty list
    into [None] and the turn raises [TypeError], while the normalized spot is
    a general spot of weight 0. *)
Theorem bare_empty_category_list_is_unreadable preferences id categories :
  (categories <> [] ->
   eligible preferences (simplified_spot id "free" categories)
   = eligible preferences (normalized_spot id "free" categories) /\
   tag_count (simplified_spot id "free" categories)
   = tag_count (normalized_spot id "free" categories)) /\
  examine preferences (simplified_spot id "free" []) = Raise TypeError /\
  examine preferences (normalized_spot id "free" [])
  = Ok (if (requires_ev preferences || requires_disabled preferences
            || requires_female preferences)%bool
        then None else Some (normalized_spot id "free" [], 0)).
Proof.
  split; [|split].
  - intros Hcategories. destruct categories as [|c categories]; [contradiction|].
    split; [|reflexivity].
    unfold eligible, examine, simplified_spot, normalized_spot. simpl py_get.
    unfold rbind at 1 2 3. unfold rbind at 15 16 17.
    cbn [get_clean_value truthy negb lookup String.eqb Ascii.eqb Bool.eqb py_eq_str].
    unfold py_in, rbind.
    destruct (existsb (fun v => py_eq_str v "forElectricCharging") (c :: categories)),
      (existsb (fun v => py_eq_str v "forDisabled") (c :: categories)),
      (existsb (fun v => py_eq_str v "forWomen") (c :: categories)),
      preferences as [[] [] []]; reflexivity.
  - reflexivity.
  - destruct preferences as [[] [] []]; reflexivity.
Qed.

Lemma bare_empty_category_list_is_unreadable_witness :
  eligible generic_request (simplified_spot (JStr "K") "free" [JStr "forElectricCharging"])
  = eligible generic_request (normalized_spot (JStr "K") "free" [JStr "forElectricCharging"]).
Proof.
  refine (proj1 (proj1 (bare_empty_category_list_is_unreadable generic_request (JStr "K")
                          [JStr "forElectricCharging"]) _)).
  discriminate.
Defined.

(* ===================================================================== *)
(** ** The selection through the whole handler *)
(* ===================================================================== *)


(** The three cases of reading a position: an object that is not empty gives
    its [coordinates] ([None] when it has none), a missing or empty location
    gives [[0, 0]], any other value has no [get]. *)
Lemma position_of_cases spot :
  match attribute spot "location" with
  | JDict (field :: fields) =>
      position_of spot = Ok (attribute_raw (field :: fields) "coordinates")
  | location_data =>
      position_of spot = if truthy location_data then Raise AttributeError
                         else Ok (JList [JInt 0; JInt 0])
  end.
Proof.
  unfold position_of. cbv zeta.
  destruct (attribute spot "location") as [| | | | | |[|field fields]];
    try reflexivity; destruct (truthy _); reflexivity.
Qed.

(** A turn of the first loop raises nothing but what [get] on an item that
    is no dict and [in] on a value that has no members raise. *)
Lemma examine_raises preferences spot e :
  examine preferences spot = Raise e -> e = TypeError \/ e = AttributeError.
Proof.
  destruct spot as [| | | | | |fields];
    try (intros H; inversion H; now right).
  unfold examine. simpl py_get. unfold rbind at 1 2 3.
  set (status := get_clean_value _).
  set (categories := get_clean_value match lookup "category" fields with _ => _ end).
  destruct (py_eq_str status "free"); [|discriminate].
  destruct preferences as [rd rf re].
  destruct categories; simpl;
    try (intros H; inversion H; now left);
    repeat match goal with
           | |- context [if ?c then _ else _] => destruct c; simpl
           end; discriminate.
Qed.

Lemma examine_not_readable preferences spot :
  readable spot = false -> exists e, examine preferences spot = Raise e.
Proof.
  destruct spot as [| | | | | |fields]; try (intros _; eexists; reflexivity).
  intros H. exists TypeError. now apply examine_unreadable.
Qed.

(** One spot the first loop cannot read, anywhere in the listing, and the
    loop raises: at that spot, or at an earlier one. *)
Lemma scan_raises preferences spots :
  (exists spot, In spot spots /\ readable spot = false) ->
  forall suitable_spots,
    exists e, (e = TypeError \/ e = AttributeError) /\
              scan preferences spots suitable_spots = Raise e.
Proof.
  intros (bad & Hin & Hbad).
  induction spots as [|spot rest IH]; [destruct Hin|]. intros acc. simpl.
  destruct (examine preferences spot) as [turn|e] eqn:Hturn.
  - destruct Hin as [->|Hin].
    + destruct (examine_not_readable preferences bad Hbad) as (e & He). congruence.
    + simpl. apply IH, Hin.
  - exists e. split; [exact (examine_raises _ _ _ Hturn) | reflexivity].
Qed.

(** C4. The first eligible spot of least weight is not always what
    [find_parking_spot] returns.  One fetched item that the first loop cannot
    read (a free spot without a readable [category], or an item that is not
    an entity) makes the call raise [TypeError] or [AttributeError] before
    the second loop runs, whatever eligible spots are listed before or after
    it.  Spot A is eligible for a generic request with weight 0, the least
    there is, and is the spot returned when it is listed alone.  Listed with
    spot C, which has no [category], before it or after it, no spot is
    returned: the call raises [TypeError]. *)
Theorem unreadable_spot_defeats_the_lightest_match :
  (forall (Broker : Type) (orion : Request -> Broker -> reply * Broker)
          preferences (w : World Broker) spots,
      decoded (reply_to orion list_request w) = Ok (JList spots) ->
      (exists spot, In spot spots /\ eligible preferences spot = true) ->
      (exists spot, In spot spots /\ readable spot = false) ->
      exists e, (e = TypeError \/ e = AttributeError) /\
                fst (find_parking_spot orion preferences w) = Raise e) /\
  eligible generic_request spot_A = true /\
  tag_count spot_A = 0 /\
  eligible generic_request spot_C = false /\
  readable spot_C = false /\
  fst (find_parking_spot (entity_store false) generic_request
         (world_of [("A", spot_A)] [] []))
  = Ok (assignment spot_A (JList [JInt 3; JInt 4])) /\
  fst (find_parking_spot (entity_store false) generic_request
         (world_of [("A", spot_A); ("C", spot_C)] [] [])) = Raise TypeError /\
  fst (find_parking_spot (entity_store false) generic_request
         (world_of [("C", spot_C); ("A", spot_A)] [] [])) = Raise TypeError.
Proof.
  split; [|repeat split].
  intros Broker orion preferences w spots Hlisting _ Hbad.
  rewrite find_parking_spot_run, Hlisting. cbn [fst].
  unfold match_spots. simpl py_iter. unfold rbind at 1.
  destruct (scan_raises preferences spots Hbad []) as (e & He & ->).
  exists e. split; [exact He | reflexivity].
Qed.

Section Selection.

Context {Broker : Type} (orion : Request -> Broker -> reply * Broker).


End Selection.


(** Five spots for a generic request: W and B are reserved, E is eligible
    with weight 1, A with weight 0, and A is the spot assigned. *)
Example generic_request_among_five :
  fst (find_parking_spot (entity_store false) generic_request
         (world_of [("W", spot_W); ("B", spot_B); ("E", spot_E); ("A", spot_A);
                    ("E2", spot_E)] [] []))
  = Ok (JDict [("status", JStr "success");
               ("assigned_spot_id", JStr "A");
               ("spot_number", JNull);
               ("coordinates", JList [JInt 3; JInt 4]);
               ("message", JStr "Spot reserved successfully.")]).
Proof. reflexivity. Qed.

(* ===================================================================== *)
(** ** What the handlers leave alone *)
(* ===================================================================== *)

Section Frames.

Context {Broker : Type} (orion : Request -> Broker -> reply * Broker).
Context (py_repr : json -> string).

(** A relation between worlds that holds across an exchange with the store. *)
Variable R : World Broker -> World Broker -> Prop.
Hypothesis R_refl : forall w, R w w.
Hypothesis R_trans : forall w1 w2 w3, R w1 w2 -> R w2 w3 -> R w1 w3.
Hypothesis R_exchange : forall rq w, R w (after orion rq w).

Lemma preserves_ret {A} (a : A) : preserves R (ret (Broker := Broker) a).
Proof. intros w. apply R_refl. Qed.

Lemma preserves_raise {A} e : preserves R (raise (Broker := Broker) (A := A) e).
Proof. intros w. apply R_refl. Qed.

Lemma preserves_lift {A} (r : result A) : preserves R (lift (Broker := Broker) r).
Proof. intros w. apply R_refl. Qed.

Lemma preserves_request rq : preserves R (request orion rq).
Proof. intros w. rewrite request_run. apply R_exchange. Qed.

Lemma preserves_bind {A B} (m : World Broker -> result A * World Broker)
    (k : A -> World Broker -> result B * World Broker) :
  preserves R m -> (forall a, preserves R (k a)) -> preserves R (bind m k).
Proof.
  intros Hm Hk w. unfold bind. specialize (Hm w).
  destruct (m w) as [[a|e] w']; simpl in *; [|assumption].
  eapply R_trans; [exact Hm | apply Hk].
Qed.

Lemma preserves_try_except {A} (m : World Broker -> result A * World Broker)
    (handler : exn -> World Broker -> result A * World Broker) :
  preserves R m -> (forall e, preserves R (handler e)) -> preserves R (try_except m handler).
Proof.
  intros Hm Hh w. unfold try_except. specialize (Hm w).
  destruct (m w) as [[a|e] w']; simpl in *; [assumption|].
  eapply R_trans; [exact Hm | apply Hh].
Qed.

Lemma preserves_if {A} (c : bool) (m m' : World Broker -> result A * World Broker) :
  preserves R m -> preserves R m' -> preserves R (if c then m else m').
Proof. destruct c; auto. Qed.

(** Breaks a handler into its steps. *)
Ltac frame :=
  repeat first
    [ apply preserves_ret | apply preserves_raise | apply preserves_lift
    | apply preserves_request | apply preserves_if
    | apply preserves_bind; [|intros ?] | apply preserves_try_except; [|intros ?]
    | match goal with
      | |- preserves _ (match ?e with _ => _ end) => destruct e
      end ].

Lemma preserves_fetch_spots : preserves R (fetch_spots orion).
Proof. unfold fetch_spots. frame. Qed.

Lemma preserves_patch_status spot_id value : preserves R (patch_status orion spot_id value).
Proof. unfold patch_status. frame. Qed.

Lemma preserves_find_parking_spot preferences :
  preserves R (find_parking_spot orion preferences).
Proof. unfold find_parking_spot. pose proof preserves_fetch_spots. frame; assumption. Qed.

Lemma preserves_create_parking_garage garage_data :
  preserves R (create_parking_garage orion garage_data).
Proof. unfold create_parking_garage. frame. Qed.

Lemma preserves_clear_single_parking_spot spot_id :
  preserves R (clear_single_parking_spot orion spot_id).
Proof. unfold clear_single_parking_spot. frame. Qed.

Lemma preserves_clear_each spots : preserves R (clear_each orion py_repr spots).
Proof.
  induction spots as [|spot rest IH]; simpl; [apply preserves_ret|].
  apply preserves_bind; [|intros _; exact IH].
  unfold clear_one. pose proof preserves_patch_status. frame; auto.
Qed.

Lemma preserves_clear_parking_spot : preserves R (clear_parking_spot orion py_repr).
Proof.
  unfold clear_parking_spot.
  pose proof preserves_fetch_spots. pose proof preserves_clear_each. frame; auto.
Qed.

Lemma preserves_delete_each spots :
  forall deleted_spots, preserves R (delete_each orion py_repr spots deleted_spots).
Proof.
  induction spots as [|spot rest IH]; intros deleted_spots; simpl; [apply preserves_ret|].
  apply preserves_bind; [apply preserves_lift|]. intros spot_id.
  apply preserves_bind; [apply preserves_request|]. intros del_resp. apply IH.
Qed.

Lemma preserves_delete_garage garage_id : preserves R (delete_garage orion py_repr garage_id).
Proof.
  unfold delete_garage. pose proof preserves_delete_each. frame; auto.
Qed.

Lemma preserves_book_parking_spot spot_id :
  (forall coords, preserves R (send_coordinates spot_id coords)) ->
  preserves R (book_parking_spot orion spot_id).
Proof.
  intros Hsend. unfold book_parking_spot. pose proof preserves_patch_status.
  frame; auto.
Qed.

End Frames.

Lemma quiet_refl {Broker : Type} (w : World Broker) : quiet w w.
Proof. split; reflexivity. Qed.

Lemma quiet_trans {Broker : Type} (w1 w2 w3 : World Broker) :
  quiet w1 w2 -> quiet w2 w3 -> quiet w1 w3.
Proof. intros (H1 & H2) (H3 & H4). split; congruence. Qed.

Lemma quiet_exchange {Broker : Type} (orion : Request -> Broker -> reply * Broker) rq w :
  quiet w (after orion rq w).
Proof.
  split; [reflexivity|]. cbn [wire after]. rewrite deliveries_app. simpl. apply app_nil_r.
Qed.

(** X6. Only a booking reaches the machines, and no handler touches the
    registry: finding, registering a garage, clearing and deleting leave the
    connection list, the sockets and the clock as they were and send no
    message; a booking leaves the connection list as it was, whatever its
    broadcast did. *)
Theorem only_booking_reaches_the_machines {Broker : Type}
    (orion : Request -> Broker -> reply * Broker) (py_repr : json -> string)
    (w : World Broker) :
  (forall preferences, quiet w (snd (find_parking_spot orion preferences w))) /\
  (forall garage_data, quiet w (snd (create_parking_garage orion garage_data w))) /\
  quiet w (snd (clear_parking_spot orion py_repr w)) /\
  (forall spot_id, quiet w (snd (clear_single_parking_spot orion spot_id w))) /\
  (forall garage_id, quiet w (snd (delete_garage orion py_repr garage_id w))) /\
  (forall spot_id, same_registry w (snd (book_parking_spot orion spot_id w))).
Proof.
  pose proof (quiet_exchange orion) as Hquiet.
  split; [intros preferences;
          apply (preserves_find_parking_spot orion quiet quiet_refl quiet_trans Hquiet)|].
  split; [intros garage_data;
          apply (preserves_create_parking_garage orion quiet quiet_refl quiet_trans Hquiet)|].
  split; [apply (preserves_clear_parking_spot orion py_repr quiet quiet_refl quiet_trans
                   Hquiet)|].
  split; [intros spot_id;
          apply (preserves_clear_single_parking_spot orion quiet quiet_refl quiet_trans
                   Hquiet)|].
  split; [intros garage_id;
          apply (preserves_delete_garage orion py_repr quiet quiet_refl quiet_trans Hquiet)|].
  intros spot_id.
  assert (Hrefl : forall w0 : World Broker, same_registry w0 w0) by reflexivity.
  assert (Htrans : forall w1 w2 w3 : World Broker,
             same_registry w1 w2 -> same_registry w2 w3 -> same_registry w1 w3)
    by (unfold same_registry; intros; congruence).
  assert (Hexchange : forall rq (w0 : World Broker), same_registry w0 (after orion rq w0))
    by reflexivity.
  assert (Hsend : forall coords,
             preserves (Broker := Broker) same_registry (send_coordinates spot_id coords))
    by (intros coords w0; rewrite send_coordinates_run; reflexivity).
  exact (preserves_book_parking_spot orion same_registry Hrefl Htrans Hexchange spot_id Hsend w).
Qed.

(* ===================================================================== *)
(** ** The registry of machine sockets *)
(* ===================================================================== *)

Lemma list_remove_absent x l : ~ In x l -> list_remove x l = None.
Proof.
  induction l as [|y l IH]; simpl; [reflexivity|]. intros Hnot.
  destruct (Nat.eqb y x) eqn:Hyx.
  - apply Nat.eqb_eq in Hyx. exfalso. apply Hnot. now left.
  - rewrite IH; [reflexivity|]. intros Hin. apply Hnot. now right.
Qed.

Lemma list_remove_appended x l : ~ In x l -> list_remove x (l ++ [x]) = Some l.
Proof.
  induction l as [|y l IH]; simpl; intros Hnot.
  - now rewrite Nat.eqb_refl.
  - destruct (Nat.eqb y x) eqn:Hyx.
    + apply Nat.eqb_eq in Hyx. exfalso. apply Hnot. now left.
    + rewrite IH; [reflexivity|]. intros Hin. apply Hnot. now right.
Qed.

Lemma list_remove_present x l :
  In x l -> exists l', list_remove x l = Some l' /\ S (List.length l') = List.length l.
Proof.
  induction l as [|y l IH]; simpl; [intros []|]. intros Hin.
  destruct (Nat.eqb y x) eqn:Hyx; [eexists; split; reflexivity|].
  destruct Hin as [-> | Hin]; [rewrite Nat.eqb_refl in Hyx; discriminate|].
  destruct (IH Hin) as (l' & -> & Hlength). eexists. split; [reflexivity|].
  simpl. now rewrite Hlength.
Qed.

Lemma closed_connection_stops_all closed connections c :
  In c connections -> is_closed closed c = true ->
  forallb (fun c => negb (is_closed closed c)) connections = false.
Proof.
  intros Hin Hc. induction connections as [|c' rest IH]; [destruct Hin|].
  simpl. destruct Hin as [-> | Hin]; [now rewrite Hc|].
  rewrite (IH Hin). apply andb_false_r.
Qed.

Section Registry.

Context {Broker : Type}.

(** X7. [connect] and [disconnect] on the connection list.  A socket that is
    not yet registered is appended by [connect], and [disconnect] then leaves
    the world as it was before.  [disconnect] of a socket that is not
    registered raises [ValueError] and changes nothing; of a registered one it
    removes one entry. *)
Theorem connect_disconnect_round_trip websocket (w : World Broker) :
  (is_closed (closed w) websocket = false ->
   ~ In websocket (active_connections w) ->
   active_connections (snd (connect websocket w)) = (active_connections w ++ [websocket])%list /\
   disconnect websocket (snd (connect websocket w)) = (Ok tt, w)) /\
  (~ In websocket (active_connections w) ->
   disconnect websocket w = (Raise ValueError, w)) /\
  (In websocket (active_connections w) ->
   fst (disconnect websocket w) = Ok tt /\
   S (List.length (active_connections (snd (disconnect websocket w))))
   = List.length (active_connections w)).
Proof.
  split; [|split].
  - intros Hopen Hnew. unfold connect. rewrite Hopen. split; [reflexivity|].
    unfold disconnect. cbn [active_connections snd].
    rewrite (list_remove_appended _ _ Hnew). destruct w; reflexivity.
  - intros Hnew. unfold disconnect. now rewrite (list_remove_absent _ _ Hnew).
  - intros Hin. unfold disconnect.
    destruct (list_remove_present _ _ Hin) as (l' & -> & Hlength). split; [reflexivity|].
    exact Hlength.
Qed.

Lemma receive_loop_texts texts rest :
  receive_loop (map Text texts ++ rest) = receive_loop rest.
Proof. induction texts as [|data texts IH]; simpl; auto. Qed.

(** X8. [machine_socket] never unregisters its socket.  While the machine
    sends texts the run stays in the loop with the socket registered.  When a
    receive raises, whatever it raises and however many texts came before, the
    lookup of [WebSocketDisconnect] fails in the names of [main.py]: the run
    ends in [NameError], [manager.disconnect] is not reached and the socket is
    still registered.  In a module that does bind the name, the same run ends
    through the handler with the socket removed. *)
Theorem machine_socket_never_unregisters websocket texts (w : World Broker) :
  is_closed (closed w) websocket = false ->
  let registered := mkWorld (broker w) (active_connections w ++ [websocket])
                      (closed w) (clock w) (wire w) in
  machine_socket websocket (map Text texts) w = (Receiving, registered) /\
  (forall t rest,
      machine_socket websocket (map Text texts ++ Throws t :: rest) w
      = (NameError "WebSocketDisconnect", registered)) /\
  (forall code rest,
      ~ In websocket (active_connections w) ->
      machine_socket_in ("WebSocketDisconnect" :: module_names) websocket
        (map Text texts ++ Throws (WebSocketDisconnect code) :: rest) w
      = (Handled, w)).
Proof.
  intros Hopen. cbv zeta. unfold machine_socket, machine_socket_in, connect. rewrite Hopen.
  split; [|split].
  - rewrite <- (app_nil_r (map Text texts)), receive_loop_texts. reflexivity.
  - intros t rest. rewrite receive_loop_texts. reflexivity.
  - intros code rest Hnew. rewrite receive_loop_texts. cbn [receive_loop].
    cbn [is_bound existsb String.eqb Ascii.eqb Bool.eqb orb negb].
    unfold disconnect. cbn [active_connections].
    rewrite (list_remove_appended _ _ Hnew). destruct w; reflexivity.
Qed.

End Registry.

Lemma connect_disconnect_round_trip_witness :
  disconnect 3%nat (snd (connect 3%nat (world_of tt [1; 2]%nat [])))
  = (Ok tt, world_of tt [1; 2]%nat []).
Proof.
  refine (proj2 (proj1 (connect_disconnect_round_trip 3%nat (world_of tt [1; 2]%nat []))
                   eq_refl _)).
  simpl. intros [H | [H | []]]; discriminate H.
Defined.

Lemma machine_socket_never_unregisters_witness :
  machine_socket 3%nat [Text "heartbeat"; Text "log"; Throws (WebSocketDisconnect 1000)]
    (world_of tt [1; 2]%nat [])
  = (NameError "WebSocketDisconnect", world_of tt [1; 2; 3]%nat []).
Proof.
  exact (proj1 (proj2 (machine_socket_never_unregisters 3%nat ["heartbeat"; "log"]
                         (world_of tt [1; 2]%nat []) eq_refl))
           (WebSocketDisconnect 1000) []).
Defined.

(* ===================================================================== *)
(** ** Outcomes of the handlers *)
(* ===================================================================== *)

Section Outcomes.

Context {Broker : Type} (orion : Request -> Broker -> reply * Broker).
Context (py_repr : json -> string).

(** X9. [find_parking_spot] reserves nothing.  It sends the one listing
    request; against a store whose state a listing leaves as it was, a second
    call with the same preferences gets the same answer as the first, the
    same spot included. *)
Theorem find_parking_spot_does_not_reserve preferences (w : World Broker) :
  snd (orion list_request (broker w)) = broker w ->
  let first := find_parking_spot orion preferences w in
  let second := find_parking_spot orion preferences (snd first) in
  fst second = fst first /\
  requests_of (wire (snd second))
  = (requests_of (wire w) ++ [list_request; list_request])%list.
Proof.
  intros Hstill. cbv zeta. rewrite !find_parking_spot_run. cbn [fst snd].
  assert (Hreply : reply_to orion list_request (after orion list_request w)
                   = reply_to orion list_request w).
  { unfold reply_to. cbn [broker after]. now rewrite Hstill. }
  rewrite Hreply. split; [reflexivity|].
  rewrite !(requests_after orion), <- app_assoc. reflexivity.
Qed.

(** X10. How [find_parking_spot] fails.  When the listing cannot be had (no
    answer, an error status, a body that is not JSON) it raises
    [HTTPException] 500.  A body that decodes to [None], a boolean or a number
    makes the loop raise [TypeError]; a JSON object with a key makes it raise
    [AttributeError], its keys being taken for spots.  Neither is caught. *)
Theorem find_parking_spot_failures preferences (w : World Broker) :
  let rp := reply_to orion list_request w in
  let run := find_parking_spot orion preferences w in
  (forall msg, rp = Unreachable msg ->
      fst run = Raise (HTTPException 500 ("Could not connect to FIWARE: " ++ msg))) /\
  (forall r, rp = Answer r -> accepted rp = false ->
      exists msg, fst run = Raise (HTTPException 500 ("Could not connect to FIWARE: " ++ msg))) /\
  (forall r msg, rp = Answer r -> accepted rp = true -> content r = inl msg ->
      fst run = Raise (HTTPException 500 ("Could not connect to FIWARE: " ++ msg))) /\
  (forall body, decoded rp = Ok body ->
      match body with
      | JNull | JBool _ | JInt _ | JFloat _ => fst run = Raise TypeError
      | JDict (_ :: _) => fst run = Raise AttributeError
      | JDict [] | JList [] => fst run = Ok no_spot_response
      | _ => True
      end).
Proof.
  cbv zeta. rewrite find_parking_spot_run. cbn [fst].
  split; [intros msg ->; reflexivity|].
  split.
  { intros r -> Hrejected. unfold decoded.
    destruct (raise_for_status_rejected r Hrejected) as (msg & ->). exists msg. reflexivity. }
  split.
  { intros r msg -> Haccepted Hcontent. unfold decoded, response_json.
    rewrite (raise_for_status_accepted r Haccepted), Hcontent. reflexivity. }
  intros body ->. destruct body as [| | | | |[|]|[|[]]]; try reflexivity; exact I.
Qed.

(** X11. Once the store has accepted the write, the outcome of
    [book_parking_spot] is the broadcast's.  With every registered socket
    open the call returns and each registered connection is sent the event
    once, in order, after the two exchanges.  With a registered socket that
    is closed the call raises [RuntimeError], although the write stands. *)
Theorem booking_outcome_after_accepted_write spot_id response coords r (w : World Broker) :
  let read := reply_to orion (read_request spot_id) w in
  let w1 := after orion (read_request spot_id) w in
  let run := book_parking_spot orion spot_id w in
  decoded read = Ok response ->
  stored_coordinates response = Ok coords ->
  reply_to orion (write_request spot_id "occupied") w1 = Answer r ->
  accepted (Answer r) = true ->
  broker (snd run) = snd (orion (write_request spot_id "occupied") (broker w1)) /\
  (forallb (fun c => negb (is_closed (closed w) c)) (active_connections w) = true ->
   fst run = Ok (locked_response spot_id) /\
   wire (snd run)
   = (wire w
      ++ Exchange (read_request spot_id) read
      :: Exchange (write_request spot_id "occupied") (Answer r)
      :: map (fun c => Delivered c (dispatch_event spot_id coords (clock w)))
           (active_connections w))%list) /\
  (forall c, In c (active_connections w) -> is_closed (closed w) c = true ->
   fst run = Raise RuntimeError /\
   In (Exchange (write_request spot_id "occupied") (Answer r)) (wire (snd run))).
Proof.
  cbv zeta. intros Hread Hcoords Hwrite Haccepted.
  rewrite book_parking_spot_run. cbv zeta.
  rewrite Hread, Hcoords, Hwrite, Haccepted, send_coordinates_run.
  cbn [closed active_connections clock after].
  split; [destruct (forallb _ _); reflexivity|]. split.
  - intros Hopen. rewrite Hopen, (reached_all_open _ _ Hopen). split; [reflexivity|].
    cbn [snd wire after]. rewrite Hwrite, <- !app_assoc. reflexivity.
  - intros c Hin Hc. rewrite (closed_connection_stops_all _ _ c Hin Hc).
    split; [reflexivity|]. cbn [snd wire after]. rewrite Hwrite.
    apply in_or_app. left. apply in_or_app. right. now left.
Qed.

(** X12. [clear_single_parking_spot] by the store's answer.  An accepted
    update returns the success message.  An answer of 404 does not come out as
    404: the [HTTPException] raised for it inside the [try] is caught by the
    last [except] clause and comes out as 500.  Another error status comes out
    as 400 with the answer's text, no answer as 500.  So the call never raises
    [HTTPException] with a code other than 400 or 500. *)
Theorem clear_single_parking_spot_outcomes spot_id (w : World Broker) :
  let rp := reply_to orion (write_request spot_id "free") w in
  let run := clear_single_parking_spot orion spot_id w in
  fst run
  = match rp with
    | Unreachable msg => Raise (HTTPException 500 ("Connection Error: " ++ msg))
    | Answer r =>
        if status_code r =? 404 then
          Raise (HTTPException 500
                   ("Connection Error: "
                    ++ exn_str (HTTPException 404
                                  ("Spot " ++ spot_id ++ " not found in FIWARE."))))
        else if accepted rp then
          Ok (JDict [("status", JStr "success");
                     ("message", JStr ("Spot " ++ spot_id
                                       ++ " is now free and available for new bookings."))])
        else Raise (HTTPException 400 ("Failed to update FIWARE: " ++ text r))
    end /\
  (forall e, fst run = Raise e ->
             exists code detail, e = HTTPException code detail /\ (code = 400 \/ code = 500)).
Proof.
  cbv zeta.
  assert (Hrun : fst (clear_single_parking_spot orion spot_id w)
                 = match reply_to orion (write_request spot_id "free") w with
                   | Unreachable msg => Raise (HTTPException 500 ("Connection Error: " ++ msg))
                   | Answer r =>
                       if status_code r =? 404 then
                         Raise (HTTPException 500
                                  ("Connection Error: "
                                   ++ exn_str (HTTPException 404
                                                 ("Spot " ++ spot_id
                                                  ++ " not found in FIWARE."))))
                       else if accepted (Answer r) then
                         Ok (JDict [("status", JStr "success");
                                    ("message",
                                     JStr ("Spot " ++ spot_id
                                           ++ " is now free and available for new bookings."))])
                       else Raise (HTTPException 400 ("Failed to update FIWARE: " ++ text r))
                   end).
  { unfold clear_single_parking_spot. unfold bind at 1, try_except. unfold bind at 1.
    rewrite request_run.
    destruct (reply_to orion _ w) as [r|msg]; [|reflexivity].
    unfold bind at 1. destruct (status_code r =? 404); [reflexivity|].
    unfold ret, lift. destruct (accepted (Answer r)) eqn:Ha.
    - rewrite (raise_for_status_accepted r Ha). reflexivity.
    - destruct (raise_for_status_rejected r Ha) as (msg & ->). reflexivity. }
  split.
  - rewrite Hrun. destruct (reply_to orion _ w); reflexivity.
  - intros e. rewrite Hrun. destruct (reply_to orion _ w) as [r|msg].
    + destruct (status_code r =? 404); [intros H; inversion H; eauto|].
      destruct (accepted (Answer r)); intros H; inversion H; eauto.
    + intros H; inversion H; eauto.
Qed.

(** X13. [create_parking_garage] returns its success message exactly when the
    store answers 201.  Every other outcome is [HTTPException] 500: the
    exception it raises with the store's own status is raised inside the
    [try] and caught by [except Exception], so that status reaches the caller
    only inside the detail text. *)
Theorem create_parking_garage_outcomes garage_data (w : World Broker) :
  let rp := reply_to orion (create_request garage_data) w in
  let run := create_parking_garage orion garage_data w in
  fst run
  = match rp with
    | Unreachable msg => Raise (HTTPException 500 ("Connection Error: " ++ msg))
    | Answer r =>
        if status_code r =? 201 then
          Ok (JDict [("status", JStr "success");
                     ("message", JStr "Parking Garage registered successfully.")])
        else
          Raise (HTTPException 500
                   ("Connection Error: "
                    ++ exn_str (HTTPException (status_code r) ("Orion Error: " ++ text r))))
    end /\
  (forall e, fst run = Raise e -> exists detail, e = HTTPException 500 detail) /\
  ((exists response, fst run = Ok response) <->
   exists r, rp = Answer r /\ status_code r = 201).
Proof.
  cbv zeta.
  assert (Hrun : fst (create_parking_garage orion garage_data w)
                 = match reply_to orion (create_request garage_data) w with
                   | Unreachable msg => Raise (HTTPException 500 ("Connection Error: " ++ msg))
                   | Answer r =>
                       if status_code r =? 201 then
                         Ok (JDict [("status", JStr "success");
                                    ("message",
                                     JStr "Parking Garage registered successfully.")])
                       else
                         Raise (HTTPException 500
                                  ("Connection Error: "
                                   ++ exn_str (HTTPException (status_code r)
                                                 ("Orion Error: " ++ text r))))
                   end).
  { unfold create_parking_garage, try_except, bind. rewrite request_run.
    destruct (reply_to orion _ w) as [r|msg]; [|reflexivity].
    destruct (status_code r =? 201); reflexivity. }
  rewrite Hrun. split; [reflexivity|].
  destruct (reply_to orion _ w) as [r|msg].
  - destruct (status_code r =? 201) eqn:H201.
    + split; [intros e H; discriminate H|].
      split; [intros _; exists r; split; [reflexivity | now apply Z.eqb_eq] | eauto].
    + split; [intros e H; inversion H; eauto|].
      split; [intros (response & H); discriminate H|].
      intros (r' & Hr & H). inversion Hr; subst. apply Z.eqb_eq in H. congruence.
  - split; [intros e H; inversion H; eauto|].
    split; [intros (response & H); discriminate H | intros (r & H & _); discriminate H].
Qed.

Lemma clear_each_app before rest (w : World Broker) :
  clear_each orion py_repr (before ++ rest) w
  = match clear_each orion py_repr before w with
    | (Ok _, w') => clear_each orion py_repr rest w'
    | (Raise e, w') => (Raise e, w')
    end.
Proof.
  revert w. induction before as [|spot before IH]; intros w; [reflexivity|].
  simpl. unfold bind. destruct (clear_one orion py_repr spot w) as [[[]|e] w']; [apply IH|].
  reflexivity.
Qed.

(** X14. [clear_parking_spot] stops at the first update the store refuses.
    When the loop has passed the spots before an occupied one and the store
    answers that one's update with an error status, the call raises
    [HTTPException] 400 with the answer's text and ends there: the updates
    made so far stand and no request goes out for the spots after it. *)
Theorem clearing_stops_at_first_refusal before fields rest r (w w1 : World Broker) :
  decoded (reply_to orion list_request w)
  = Ok (JList (before ++ JDict fields :: rest)) ->
  clear_each orion py_repr before (after orion list_request w) = (Ok tt, w1) ->
  not_free (JDict fields) = true ->
  reply_to orion (write_request (fmt py_repr (id_of (JDict fields))) "free") w1 = Answer r ->
  accepted (Answer r) = false ->
  clear_parking_spot orion py_repr w
  = (Raise (HTTPException 400 ("Failed to update FIWARE: " ++ text r)),
     after orion (write_request (fmt py_repr (id_of (JDict fields))) "free") w1).
Proof.
  intros Hfetch Hbefore Hspot Hreply Hrejected.
  unfold clear_parking_spot. unfold bind at 1. rewrite fetch_spots_run, Hfetch.
  unfold bind at 1, lift. simpl py_iter. cbv iota. unfold bind at 1.
  rewrite clear_each_app, Hbefore. simpl clear_each. unfold bind at 1.
  rewrite clear_one_run, Hspot, Hreply, Hrejected. reflexivity.
Qed.

(** X15. When the query of [delete_garage] fails (no answer, an error status,
    a body that is not JSON) the call raises [HTTPException] 500 with the
    error's text, and the query is the only request it has sent: nothing is
    deleted. *)
Theorem garage_query_failure_deletes_nothing garage_id e (w : World Broker) :
  decoded (reply_to orion (query_request garage_id) w) = Raise e ->
  delete_garage orion py_repr garage_id w
  = (Raise (HTTPException 500 (exn_str e)), after orion (query_request garage_id) w).
Proof.
  intros Hquery. unfold delete_garage, try_except. unfold bind at 1. rewrite request_run.
  unfold decoded in Hquery.
  destruct (reply_to orion (query_request garage_id) w) as [resp|msg].
  - unfold bind at 1, lift. unfold rbind in Hquery.
    destruct (raise_for_status resp) as [[]|e'] eqn:Hstatus.
    + unfold bind at 1. rewrite Hquery. unfold response_json in Hquery.
      destruct (content resp); inversion Hquery. reflexivity.
    + inversion Hquery; subst. unfold raise_for_status in Hstatus.
      destruct ((400 <=? status_code resp) && (status_code resp <? 500))%bool;
        [inversion Hstatus; reflexivity|].
      destruct ((500 <=? status_code resp) && (status_code resp <? 600))%bool;
        [inversion Hstatus; reflexivity | discriminate Hstatus].
  - inversion Hquery. reflexivity.
Qed.

End Outcomes.

Lemma find_parking_spot_does_not_reserve_witness :
  let w := world_of [("A", spot_A); ("B", spot_B)] [] [] in
  let first := find_parking_spot (entity_store true) generic_request w in
  let second := find_parking_spot (entity_store true) generic_request (snd first) in
  fst second = fst first /\
  requests_of (wire (snd second)) = [list_request; list_request].
Proof.
  exact (find_parking_spot_does_not_reserve (entity_store true) generic_request
           (world_of [("A", spot_A); ("B", spot_B)] [] []) eq_refl).
Defined.

Lemma booking_outcome_after_accepted_write_witness :
  let w := world_of [("A", spot_A)] [1; 2]%nat [2]%nat in
  let run := book_parking_spot (entity_store false) "A" w in
  fst run = Raise RuntimeError /\
  In (Exchange (write_request "A" "occupied")
        (answer 204 "No Content" (write_request "A" "occupied") no_body))
     (wire (snd run)).
Proof.
  exact (proj2 (proj2 (booking_outcome_after_accepted_write (entity_store false) "A" spot_A
                         (JList [JInt 3; JInt 4])
                         (mkResponse 204 "No Content" (attrs_url "A") "" no_body)
                         (world_of [("A", spot_A)] [1; 2]%nat [2]%nat)
                         eq_refl eq_refl eq_refl eq_refl))
           2%nat (or_intror (or_introl eq_refl)) eq_refl).
Defined.

Lemma clearing_stops_at_first_refusal_witness :
  let w := world_of [("A", spot_A); ("X", ngsi_spot "X" "occupied" [] None);
                     ("Y", ngsi_spot "Y" "occupied" [] None)] [] [] in
  let run := clear_parking_spot (entity_store true) repr_sample w in
  fst run = Raise (HTTPException 400 "Failed to update FIWARE: ") /\
  requests_of (wire (snd run)) = [list_request; write_request "X" "free"].
Proof.
  cbv zeta.
  rewrite (clearing_stops_at_first_refusal (entity_store true) repr_sample
             [spot_A]
             [("id", JStr "X");
              ("type", JStr "SmartIndoorParkingSpot");
              ("status", JDict [("type", JStr "Property"); ("value", JStr "occupied")]);
              ("category", JDict [("type", JStr "Property"); ("value", JList [])])]
             [ngsi_spot "Y" "occupied" [] None]
             (mkResponse 409 "Conflict" (attrs_url "X") "" no_body)
             (world_of [("A", spot_A); ("X", ngsi_spot "X" "occupied" [] None);
                        ("Y", ngsi_spot "Y" "occupied" [] None)] [] [])
             (after (entity_store true) list_request
                (world_of [("A", spot_A); ("X", ngsi_spot "X" "occupied" [] None);
                           ("Y", ngsi_spot "Y" "occupied" [] None)] [] []))
             eq_refl eq_refl eq_refl eq_refl eq_refl).
  split; reflexivity.
Defined.

Lemma garage_query_failure_deletes_nothing_witness :
  delete_garage down_store repr_sample "G1" (world_of tt [] [])
  = (Raise (HTTPException 500 "Connection refused"),
     after down_store (query_request "G1") (world_of tt [] [])).
Proof.
  exact (garage_query_failure_deletes_nothing down_store repr_sample "G1"
           (RequestException "Connection refused") (world_of tt [] []) eq_refl).
Defined.

Section PartialDeletion.

Context {Broker : Type} (orion : Request -> Broker -> reply * Broker).
Context (py_repr : json -> string).

Lemma delete_each_app before rest : forall deleted_spots (w : World Broker),
  delete_each orion py_repr (before ++ rest) deleted_spots w
  = match delete_each orion py_repr before deleted_spots w with
    | (Ok deleted_spots', w') => delete_each orion py_repr rest deleted_spots' w'
    | (Raise e, w') => (Raise e, w')
    end.
Proof.
  induction before as [|spot before IH]; intros deleted_spots w; [reflexivity|].
  simpl. unfold bind at 1 3, lift.
  destruct (py_item spot "id") as [spot_id|e]; [|reflexivity].
  unfold bind. destruct (request orion _ w) as [[del_resp|e] w']; [apply IH | reflexivity].
Qed.

(** X16. A listed spot that has no [id] ends [delete_garage] where it stands.
    The spots before it have had their DELETE, the error of [spot["id"]]
    ([KeyError] or [TypeError], not an [HTTPException]) is what the call
    raises, and neither the spots after it nor the garage get a request. *)
Theorem spot_without_id_ends_the_deletion garage_id before ids spot rest e (w : World Broker) :
  (forall rq b, verb rq = DELETE -> exists r, fst (orion rq b) = Answer r) ->
  decoded (reply_to orion (query_request garage_id) w) = Ok (JList (before ++ spot :: rest)) ->
  Forall2 (fun spot id => py_item spot "id" = Ok id) before ids ->
  py_item spot "id" = Raise e ->
  let run := delete_garage orion py_repr garage_id w in
  fst run = Raise e /\
  is_RequestException e = false /\
  exists responses,
    List.length responses = List.length before /\
    wire (snd run)
    = (wire w
       ++ Exchange (query_request garage_id) (reply_to orion (query_request garage_id) w)
       :: map (deletion py_repr) (combine ids responses))%list.
Proof.
  intros Hanswered Hquery Hids Hspot. cbv zeta.
  assert (He : is_RequestException e = false).
  { destruct spot as [| | | | | |fields]; simpl in Hspot; inversion Hspot; try reflexivity.
    destruct (lookup "id" fields); inversion Hspot. reflexivity. }
  destruct (delete_each_run orion py_repr Hanswered before ids Hids []
              (after orion (query_request garage_id) w))
    as (responses & w' & Hlength & Hrun & Hwire).
  assert (Hall : delete_garage orion py_repr garage_id w = (Raise e, w')).
  { unfold delete_garage, try_except. unfold bind at 1. rewrite request_run.
    unfold decoded in Hquery.
    destruct (reply_to orion (query_request garage_id) w) as [resp|msg]; [|discriminate Hquery].
    unfold rbind in Hquery. unfold bind at 1, lift.
    destruct (raise_for_status resp) as [[]|e']; [|discriminate Hquery].
    unfold bind at 1. rewrite Hquery. unfold bind at 1. simpl py_iter. cbv iota.
    unfold bind at 1. rewrite delete_each_app, Hrun. simpl delete_each.
    unfold bind at 1, lift. rewrite Hspot, He. reflexivity. }
  rewrite Hall. split; [reflexivity|]. split; [assumption|].
  exists responses. split; [assumption|]. cbn [snd]. rewrite Hwire.
  cbn [wire after]. rewrite <- app_assoc. reflexivity.
Qed.

End PartialDeletion.

Lemma spot_without_id_ends_the_deletion_witness :
  fst (delete_garage lenient_store repr_sample "G1"
         (world_of (JList [garage_spot "S1" "free" "G1"; JDict [("type", JStr "Spot")];
                           garage_spot "S3" "free" "G1"]) [] []))
  = Raise (KeyError "id").
Proof.
  refine (proj1 (spot_without_id_ends_the_deletion lenient_store repr_sample "G1"
                   [garage_spot "S1" "free" "G1"] [JStr "S1"]
                   (JDict [("type", JStr "Spot")]) [garage_spot "S3" "free" "G1"]
                   (KeyError "id")
                   (world_of (JList [garage_spot "S1" "free" "G1"; JDict [("type", JStr "Spot")];
                                     garage_spot "S3" "free" "G1"]) [] [])
                   _ eq_refl _ eq_refl)).
  - intros rq b Hverb. unfold lenient_store. rewrite Hverb. eexists; reflexivity.
  - repeat constructor.
Defined.
